(** * Israeli Football League E2E suite: validators, network observer and
    HTTP request report.

    Shallow embedding of
    - [src/src/helpers/validators.ts] (validateMatch, isPlayedMatch,
      isUpcomingMatch, validateTeamName),
    - the network listeners and the report of [src/src/helpers/selectors.ts]
      (the [beforeEach] request/response listeners and the test
      "HTTP Request Report (Bonus 1)"), the response listeners of the
      caching test, and the page-side code of the tests "Match list has
      correct structure", "Match links navigate correctly" and "Goal
      sorting is DESC" (the DOM as parameters),
    - the [Match] and [NetworkRequest] interfaces appended to that file.

    JavaScript strings are modelled as [string] (each character one code
    unit of the Latin-1 range); JavaScript numbers used as integers
    (timestamps, scores, status codes, counters) as [Z]; an optional
    property as [option]. A [Record<string, number>] counter created by
    [{}] is a [gmap] of its own properties together with the properties it
    inherits from [Object.prototype], which [obj[k]] also reads. *)

From Stdlib Require Import ZArith Ascii String List.
From stdpp Require Import base gmap strings list fin_maps.
Import ListNotations.
Open Scope string_scope.
Open Scope list_scope.
Open Scope Z_scope.

(* ------------------------------------------------------------------ *)
(** ** JavaScript string primitives *)

(** White space removed by [String.prototype.trim], restricted to the
    Latin-1 range: TAB, LF, VT, FF, CR, SPACE and NO-BREAK SPACE. *)
Definition is_js_whitespace (c : ascii) : bool :=
  let n := nat_of_ascii c in
  (n =? 9)%nat || (n =? 10)%nat || (n =? 11)%nat || (n =? 12)%nat
  || (n =? 13)%nat || (n =? 32)%nat || (n =? 160)%nat.

Fixpoint trim_start (s : string) : string :=
  match s with
  | EmptyString => EmptyString
  | String c s' => if is_js_whitespace c then trim_start s' else s
  end.

Fixpoint trim_end (s : string) : string :=
  match s with
  | EmptyString => EmptyString
  | String c s' =>
      let t := trim_end s' in
      match t with
      | EmptyString => if is_js_whitespace c then EmptyString else String c EmptyString
      | _ => String c t
      end
  end.

(** [s.trim()] *)
Definition trim (s : string) : string := trim_end (trim_start s).

(** [x !== undefined] for an optional property. *)
Definition defined {A} (o : option A) : bool :=
  match o with Some _ => true | None => false end.

(** Truthiness of a string: [!!s] is [s !== ""]. *)
Definition str_truthy (s : string) : bool :=
  match s with EmptyString => false | _ => true end.

(** [s.includes(search)]: [search] occurs in [s] at some position. *)
Fixpoint includes (s search : string) : bool :=
  String.prefix search s ||
  match s with
  | EmptyString => false
  | String _ s' => includes s' search
  end.

(* ------------------------------------------------------------------ *)
(** ** Data model ([match.types]) *)

Inductive match_state := Played | Upcoming | Postponed | Canceled.

(** [interface Match]; optional properties are [option]. *)
Record Match := mkMatch {
  homeTeam : string;
  awayTeam : string;
  homeScore : option Z;
  awayScore : option Z;
  date : string;
  time : option string;
  state : option match_state;
  link : option string
}.

(* ------------------------------------------------------------------ *)
(** ** validators.ts *)

(** [validateMatch]: [!!(homeTeam && awayTeam && date && typeof homeTeam
    === "string" && typeof awayTeam === "string" && homeTeam.trim().length
    > 0 && awayTeam.trim().length > 0)].  The two [typeof] tests hold for
    every value of the declared type [string]. *)
Definition validateMatch (m : Match) : bool :=
  str_truthy (homeTeam m) && str_truthy (awayTeam m) && str_truthy (date m)
  && true && true
  && (0 <? Z.of_nat (String.length (trim (homeTeam m))))
  && (0 <? Z.of_nat (String.length (trim (awayTeam m)))).

(** [isPlayedMatch]: both scores [!== undefined] and of type ["number"]
    (the latter holds for every defined value of type [number]). *)
Definition isPlayedMatch (m : Match) : bool :=
  defined (homeScore m) && defined (awayScore m) && true && true.

(** [isUpcomingMatch]: [!isPlayedMatch(m) && m.time !== undefined &&
    m.time.trim().length > 0]. *)
Definition isUpcomingMatch (m : Match) : bool :=
  negb (isPlayedMatch m) &&
  match time m with
  | Some t => 0 <? Z.of_nat (String.length (trim t))
  | None => false
  end.

(** [validateTeamName] over [string | null | undefined]. *)
Inductive nullable_string := JSNull | JSUndefined | JSString (s : string).

Definition validateTeamName (t : nullable_string) : bool :=
  match t with
  | JSString s => 0 <? Z.of_nat (String.length (trim s))
  | _ => false
  end.

(** A string with a character that is not white space. *)
Definition has_non_whitespace (s : string) : Prop :=
  exists c, In c (list_ascii_of_string s) /\ is_js_whitespace c = false.

(* ------------------------------------------------------------------ *)
(** ** Network observer ([beforeEach] of selectors.ts) *)

(** [interface NetworkRequest]. *)
Record NetworkRequest := mkRequest {
  url : string;
  method : string;
  timestamp : Z;
  responseTime : option Z;
  cached : option bool;
  status : option Z
}.

(** The part of a Playwright [Response] the listener reads: [url()],
    [status()], [headers()] (lower-cased header names) and the time
    [Date.now()] at which the listener runs. *)
Record ResponseEvent := mkResponse {
  resp_url : string;
  resp_status : Z;
  resp_headers : gmap string string;
  resp_now : Z
}.

(** Truthiness of an optional number: [undefined] and [0] are falsy. *)
Definition num_truthy (o : option Z) : bool :=
  match o with Some z => negb (z =? 0) | None => false end.

(** Truthiness of an optional string: [undefined] and [""] are falsy. *)
Definition opt_str_truthy (o : option string) : bool :=
  match o with Some s => str_truthy s | None => false end.

(** [page.on("request", ...)]: push [{url, method, timestamp: Date.now()}]. *)
Definition on_request (reqs : list NetworkRequest) (u m : string) (now : Z)
    : list NetworkRequest :=
  reqs ++ [mkRequest u m now None None None].

(** The predicate of [networkRequests.find]:
    [req.url === response.url() && !req.responseTime]. *)
Definition matches_response (ev : ResponseEvent) (r : NetworkRequest) : bool :=
  String.eqb (url r) (resp_url ev) && negb (num_truthy (responseTime r)).

(** The mutation applied to the record found:
    [responseTime = Date.now() - timestamp], [status = response.status()],
    [cached = !!(headers["cache-control"] || headers["etag"])]. *)
Definition record_response (ev : ResponseEvent) (r : NetworkRequest) : NetworkRequest :=
  let cacheControl := resp_headers ev !! "cache-control" in
  let etag := resp_headers ev !! "etag" in
  mkRequest (url r) (method r) (timestamp r)
    (Some (resp_now ev - timestamp r))
    (Some (opt_str_truthy cacheControl || opt_str_truthy etag))
    (Some (resp_status ev)).

(** [find] returns the first element satisfying the predicate; the
    listener mutates that object in place, which leaves every other
    element of the array as it was. *)
Fixpoint update_first {A} (p : A -> bool) (f : A -> A) (l : list A) : list A :=
  match l with
  | [] => []
  | x :: l' => if p x then f x :: l' else x :: update_first p f l'
  end.

(** [page.on("response", ...)]: if nothing is found, nothing happens. *)
Definition on_response (reqs : list NetworkRequest) (ev : ResponseEvent)
    : list NetworkRequest :=
  update_first (matches_response ev) (record_response ev) reqs.

(* ------------------------------------------------------------------ *)
(** ** HTTP Request Report (test "HTTP Request Report (Bonus 1)") *)

(** Completion of a JavaScript statement: a value or a thrown error. *)
Inductive js_error := TypeError (msg : string).

Inductive Exc (A : Type) :=
  | Ok (a : A)
  | Throw (e : js_error).
Arguments Ok {A} a.
Arguments Throw {A} e.

Definition exc_bind {A B} (c : Exc A) (k : A -> Exc B) : Exc B :=
  match c with Ok a => k a | Throw e => Throw e end.

Notation "'let!' x ':=' c 'in' k" := (exc_bind c (fun x => k))
  (at level 200, x name, c at level 100, k at level 200).

(** [try { c } catch (e) { h }] *)
Definition try_catch {A} (c : Exc A) (h : js_error -> Exc A) : Exc A :=
  match c with Ok a => Ok a | Throw e => h e end.

(** The result of [new URL(s)]: the report reads only [hostname]. *)
Record URL := mkURL { href : string; hostname : string }.

(** [requestsByType]. *)
Record TypeCounts := mkTypeCounts { api : Z; data : Z; assets : Z; other : Z }.

(** A value read from or stored in a [Record<string, number>] counter
    object created by [{}]: a number, a string, one of the built-in
    functions of [Object.prototype] (by its [name]), or the object
    [Object.prototype] itself. *)
Inductive JSValue :=
  | JNum (z : Z)
  | JStr (s : string)
  | JFun (name : string)
  | JObjectPrototype.

(** The properties an object created by [{}] inherits from
    [Object.prototype]: the accessor [__proto__] (its getter returns
    [Object.prototype]), [constructor] (the function [Object]) and the
    built-in methods. *)
Definition object_prototype_get (k : string) : option JSValue :=
  if String.eqb k "__proto__" then Some JObjectPrototype
  else if String.eqb k "constructor" then Some (JFun "Object")
  else if existsb (String.eqb k)
            ["__defineGetter__"; "__defineSetter__"; "hasOwnProperty";
             "__lookupGetter__"; "__lookupSetter__"; "isPrototypeOf";
             "propertyIsEnumerable"; "toString"; "valueOf"; "toLocaleString"]
  then Some (JFun k)
  else None.

(** [obj[k]] on an object created by [{}] whose own properties are [obj]:
    the own property, else the inherited one ([None] is [undefined]). *)
Definition obj_get (obj : gmap string JSValue) (k : string) : option JSValue :=
  match obj !! k with
  | Some v => Some v
  | None => object_prototype_get k
  end.

(** [x || 0] *)
Definition or_zero (o : option JSValue) : JSValue :=
  match o with
  | None => JNum 0
  | Some (JNum z) => if Z.eqb z 0 then JNum 0 else JNum z
  | Some (JStr EmptyString) => JNum 0
  | Some v => v
  end.

(** [x + 1]: addition on a number; on any other value, concatenation of
    [String(x)] and ["1"] ([String] of a built-in function is
    ["function name() { [native code] }"], of [Object.prototype]
    ["[object Object]"]). *)
Definition plus_one (v : JSValue) : JSValue :=
  match v with
  | JNum z => JNum (z + 1)
  | JStr t => JStr (t ++ "1")%string
  | JFun n => JStr ("function " ++ n ++ "() { [native code] }1")%string
  | JObjectPrototype => JStr "[object Object]1"
  end.

(** [obj[k] = v] for a primitive [v]: the own property [k] is created or
    overwritten, except for [__proto__], whose inherited setter ignores a
    value that is not an object. *)
Definition obj_set_primitive (obj : gmap string JSValue) (k : string) (v : JSValue)
    : gmap string JSValue :=
  if String.eqb k "__proto__" then obj else <[k := v]> obj.

(** [obj[k] = (obj[k] || 0) + 1] on the string-keyed counter objects
    [requestsByMethod] and [requestsByDomain]. *)
Definition bump_prop (obj : gmap string JSValue) (k : string) : gmap string JSValue :=
  obj_set_primitive obj k (plus_one (or_zero (obj_get obj k))).

Record RequestReport := mkReport {
  totalRequests : Z;
  requestsByMethod : gmap string JSValue;
  requestsByDomain : gmap string JSValue;
  requestsByType : TypeCounts;
  statusCodes : gmap Z Z
}.

(** [obj[k] = (obj[k] || 0) + 1] on [statusCodes], whose keys are the
    non-zero status numbers: their property names (["200"], ...) name no
    property of [Object.prototype], so the object only ever holds the
    numbers it counts. *)
Definition bump {K} `{Countable K} (obj : gmap K Z) (k : K) : gmap K Z :=
  <[k := default 0 (obj !! k) + 1]> obj.

Inductive RequestType := TApi | TData | TAssets | TOther.

(** The [if / else if] chain of "Count by type". *)
Definition request_type (u : string) : RequestType :=
  if includes u "api" || includes u "data" then TApi
  else if includes u ".js" || includes u ".css" || includes u ".png"
          || includes u ".jpg" then TAssets
  else if includes u "match" || includes u "live" then TData
  else TOther.

Definition count_type (t : RequestType) (c : TypeCounts) : TypeCounts :=
  match t with
  | TApi => mkTypeCounts (api c + 1) (data c) (assets c) (other c)
  | TData => mkTypeCounts (api c) (data c + 1) (assets c) (other c)
  | TAssets => mkTypeCounts (api c) (data c) (assets c + 1) (other c)
  | TOther => mkTypeCounts (api c) (data c) (assets c) (other c + 1)
  end.

Section Report.

(** The WHATWG URL constructor [new URL(s)] of the runtime: it returns the
    parsed URL or throws a [TypeError] on an invalid URL. *)
Variable new_URL : string -> Exc URL.

(** The body of [allRequests.forEach((req) => { ... })]. *)
Definition report_step (req : NetworkRequest) (rep : RequestReport) : Exc RequestReport :=
  (* Count by method *)
  let byMethod := bump_prop (requestsByMethod rep) (method req) in
  (* Count by domain *)
  let! byDomain := try_catch
      (let! u := new_URL (url req) in
       let domain := hostname u in
       Ok (bump_prop (requestsByDomain rep) domain))
      (fun _ => Ok (requestsByDomain rep)) in
  (* Count by type *)
  let byType := count_type (request_type (url req)) (requestsByType rep) in
  (* Count by status code *)
  let codes :=
    match status req with
    | Some s => if num_truthy (Some s) then bump (statusCodes rep) s else statusCodes rep
    | None => statusCodes rep
    end in
  Ok (mkReport (totalRequests rep) byMethod byDomain byType codes).

Fixpoint forEach (reqs : list NetworkRequest) (rep : RequestReport) : Exc RequestReport :=
  match reqs with
  | [] => Ok rep
  | r :: rs => let! rep' := report_step r rep in forEach rs rep'
  end.

(** [const requestReport = {...}; allRequests.forEach(...)]. *)
Definition generate_report (allRequests : list NetworkRequest) : Exc RequestReport :=
  forEach allRequests
    (mkReport (Z.of_nat (length allRequests)) ∅ ∅ (mkTypeCounts 0 0 0 0) ∅).

End Report.

(* ------------------------------------------------------------------ *)
(** ** Specification helpers *)

#[global] Instance RequestType_eq_dec : EqDecision RequestType.
Proof. solve_decision. Defined.

(** Number of elements of [l] satisfying [p]. *)
Definition count_where {A} (p : A -> bool) (l : list A) : nat :=
  length (List.filter p l).

(** The value a counter object holds for a key seen [n] times: absent
    when [n = 0]. *)
Definition as_count (n : nat) : option Z :=
  if (n =? 0)%nat then None else Some (Z.of_nat n).

(** The counter key a request contributes to, if any. *)
Definition key_is {A K} `{EqDecision K} (key : A -> option K) (k : K) (r : A) : bool :=
  bool_decide (key r = Some k).

(** Folding [bump_prop] over the keys of a list of requests. *)
Definition tally_prop {A} (key : A -> option string) (l : list A)
    (obj : gmap string JSValue) : gmap string JSValue :=
  fold_left (fun o r => match key r with Some k => bump_prop o k | None => o end) l obj.

(** Folding [bump] over the keys of a list of requests. *)
Definition tally_by {A K} `{Countable K} (key : A -> option K) (l : list A)
    (m : gmap K Z) : gmap K Z :=
  fold_left (fun m r => match key r with Some k => bump m k | None => m end) l m.

Definition key_method (r : NetworkRequest) : option string := Some (method r).

Definition key_domain (new_URL : string -> Exc URL) (r : NetworkRequest) : option string :=
  match new_URL (url r) with Ok u => Some (hostname u) | Throw _ => None end.

Definition key_status (r : NetworkRequest) : option Z :=
  match status r with
  | Some s => if num_truthy (Some s) then Some s else None
  | None => None
  end.

Definition type_is (t : RequestType) (r : NetworkRequest) : bool :=
  bool_decide (request_type (url r) = t).

Definition fold_types (l : list NetworkRequest) (c : TypeCounts) : TypeCounts :=
  fold_left (fun c r => count_type (request_type (url r)) c) l c.

(** Patterns of the "Count by type" chain. *)
Definition api_pattern (u : string) : bool := includes u "api" || includes u "data".
Definition assets_pattern (u : string) : bool :=
  includes u ".js" || includes u ".css" || includes u ".png" || includes u ".jpg".
Definition data_pattern (u : string) : bool := includes u "match" || includes u "live".

(* ------------------------------------------------------------------ *)
(** ** Event traces of the listeners *)

(** An event delivered to the [beforeEach] listeners: a request issued or
    a response received, each with the [Date.now()] the listener reads. *)
Inductive ObserverEvent :=
  | EvRequest (u m : string) (now : Z)
  | EvResponse (ev : ResponseEvent).

Definition event_time (e : ObserverEvent) : Z :=
  match e with EvRequest _ _ now => now | EvResponse ev => resp_now ev end.

Definition observer_step (reqs : list NetworkRequest) (e : ObserverEvent)
    : list NetworkRequest :=
  match e with
  | EvRequest u m now => on_request reqs u m now
  | EvResponse ev => on_response reqs ev
  end.

(** [networkRequests.length = 0] in [beforeEach], then the events of the
    test in arrival order. *)
Definition run_observer (evs : list ObserverEvent) : list NetworkRequest :=
  fold_left observer_step evs [].

(** A clock that never goes backwards. *)
Fixpoint nondecreasing (ts : list Z) : bool :=
  match ts with
  | a :: (b :: _) as t => (a <=? b) && nondecreasing t
  | _ => true
  end.

(** The listeners of the test "HTTP Request Report (Bonus 1)" on
    [allRequests]: the request listener is [on_request]; the response
    listener finds [req.url === response.url() && !req.status] and sets
    [status] and [responseTime] only. *)
Definition matches_report_response (ev : ResponseEvent) (r : NetworkRequest) : bool :=
  String.eqb (url r) (resp_url ev) && negb (num_truthy (status r)).

Definition record_report_response (ev : ResponseEvent) (r : NetworkRequest) : NetworkRequest :=
  mkRequest (url r) (method r) (timestamp r)
    (Some (resp_now ev - timestamp r)) (cached r) (Some (resp_status ev)).

Definition on_report_response (reqs : list NetworkRequest) (ev : ResponseEvent)
    : list NetworkRequest :=
  update_first (matches_report_response ev) (record_report_response ev) reqs.

Definition report_observer_step (reqs : list NetworkRequest) (e : ObserverEvent)
    : list NetworkRequest :=
  match e with
  | EvRequest u m now => on_request reqs u m now
  | EvResponse ev => on_report_response reqs ev
  end.

Definition run_report_observer (evs : list ObserverEvent) : list NetworkRequest :=
  fold_left report_observer_step evs [].

(** Test "HTTP requests are cached on second load": the response listener
    keeps the responses whose URL contains ["api"], ["data"], ["match"]
    or ["live"], as [{url, method: "GET", timestamp: Date.now(),
    responseTime: 0}]. *)
Definition load_filter (u : string) : bool :=
  includes u "api" || includes u "data" || includes u "match" || includes u "live".

Definition on_load_response (recs : list NetworkRequest) (u : string) (now : Z)
    : list NetworkRequest :=
  if load_filter u then recs ++ [mkRequest u "GET" now (Some 0) None None] else recs.

(** The responses of one load, each [(response.url(), Date.now())]. *)
Definition run_load (resps : list (string * Z)) : list NetworkRequest :=
  fold_left (fun recs p => on_load_response recs (fst p) (snd p)) resps [].

(* ------------------------------------------------------------------ *)
(** ** Test "Match links navigate correctly" *)

(** [href && href !== "#" && href !== "" ? href : null] on the value of
    [link.getAttribute("href")] ([None] is [null]). *)
Definition valid_href (href : option string) : option string :=
  match href with
  | Some h =>
      if str_truthy h && negb (String.eqb h "#") && negb (String.eqb h "")
      then Some h else None
  | None => None
  end.

(** [links.map(...).filter((href) => href !== null)] *)
Definition validLinks (hrefs : list (option string)) : list (option string) :=
  List.filter (fun h => match h with Some _ => true | None => false end)
    (map valid_href hrefs).

Record LinkInfo := mkLinkInfo {
  linkCount : Z;
  validLinkCount : Z;
  firstValidLink : option string
}.

(** [{linkCount, validLinkCount, firstValidLink: validLinks[0] || null}] *)
Definition link_info (hrefs : list (option string)) : LinkInfo :=
  mkLinkInfo (Z.of_nat (length hrefs)) (Z.of_nat (length (validLinks hrefs)))
    (match validLinks hrefs with
     | Some h :: _ => if str_truthy h then Some h else None
     | _ => None
     end).

(** The characters of the class [[.*+?^${}()|[\]\\]]. *)
Definition regex_special (c : ascii) : bool :=
  existsb (Ascii.eqb c) (list_ascii_of_string ".*+?^${}()|[]\").

(** [s.replace(/[.*+?^${}()|[\]\\]/g, "\\$&")]: a backslash before each
    such character. *)
Fixpoint escape_href (s : string) : string :=
  match s with
  | EmptyString => EmptyString
  | String c s' =>
      if regex_special c then String "\"%char (String c (escape_href s'))
      else String c (escape_href s')
  end.

(** Reading the string of the selector [a[href="${escapedHref}"]] back:
    the CSS Syntax tokenizer's "consume a string token" for a string opened
    by a double quote, run on the text after the opening quote. The tokenizer's input
    preprocessing is done inline: CR LF, CR and FF each read as one newline.
    A NUL reads as U+FFFD and a hex escape can name any code point; values
    beyond the 8-bit characters of [string] are reported as
    [CssOutOfRange]. *)
Inductive CssString :=
  | CssOk (value rest : string)
  | CssBad
  | CssOutOfRange.

Definition dquote : ascii := ascii_of_nat 34.

Definition css_newline (c : ascii) : bool :=
  let n := nat_of_ascii c in (n =? 10)%nat || (n =? 12)%nat || (n =? 13)%nat.

Definition css_whitespace (c : ascii) : bool :=
  let n := nat_of_ascii c in css_newline c || (n =? 9)%nat || (n =? 32)%nat.

Definition is_hex_digit (c : ascii) : bool :=
  let n := nat_of_ascii c in
  ((48 <=? n)%nat && (n <=? 57)%nat) || ((65 <=? n)%nat && (n <=? 70)%nat) ||
  ((97 <=? n)%nat && (n <=? 102)%nat).

Definition hex_value (c : ascii) : Z :=
  let n := Z.of_nat (nat_of_ascii c) in
  if n <=? 57 then n - 48 else if n <=? 70 then n - 55 else n - 87.

(** Up to [k] more hex digits of an escape, accumulated onto [acc]. *)
Fixpoint css_hex_digits (k : nat) (acc : Z) (s : string) : Z * string :=
  match k, s with
  | S k', String c s' =>
      if is_hex_digit c then css_hex_digits k' (acc * 16 + hex_value c) s' else (acc, s)
  | _, _ => (acc, s)
  end.

(** One whitespace after a hex escape, or the newline after a backslash
    (CR LF counts as one). *)
Definition css_skip_ws (s : string) : string :=
  match s with
  | String c s' =>
      if (nat_of_ascii c =? 13)%nat then
        match s' with
        | String d s'' => if (nat_of_ascii d =? 10)%nat then s'' else s'
        | EmptyString => s'
        end
      else if css_whitespace c then s' else s
  | EmptyString => s
  end.

Definition css_cons (c : ascii) (r : CssString) : CssString :=
  match r with
  | CssOk v rest => CssOk (String c v) rest
  | other => other
  end.

(** Each round consumes at least one character, so [S (length s)] rounds
    suffice; the [O] case is not reached from [css_read_string]. *)
Fixpoint css_string_body (fuel : nat) (s : string) : CssString :=
  match fuel with
  | O => CssBad
  | S f =>
      match s with
      | EmptyString => CssOk EmptyString EmptyString
      | String c s' =>
          if Ascii.eqb c dquote then CssOk EmptyString s'
          else if css_newline c then CssBad
          else if (nat_of_ascii c =? 0)%nat then CssOutOfRange
          else if Ascii.eqb c "\"%char then
            match s' with
            | EmptyString => CssOk EmptyString EmptyString
            | String d s'' =>
                if css_newline d then css_string_body f (css_skip_ws s')
                else if is_hex_digit d then
                  let (v, r) := css_hex_digits 5 (hex_value d) s'' in
                  if (v =? 0) || ((55296 <=? v) && (v <=? 57343)) || (1114111 <? v) ||
                     (255 <? v)
                  then CssOutOfRange
                  else css_cons (ascii_of_nat (Z.to_nat v))
                                (css_string_body f (css_skip_ws r))
                else if (nat_of_ascii d =? 0)%nat then CssOutOfRange
                else css_cons d (css_string_body f s'')
            end
          else css_cons c (css_string_body f s')
      end
  end.

Definition css_read_string (s : string) : CssString :=
  css_string_body (S (String.length s)) s.

(** A character a CSS string holds as itself: not the closing quote, not a
    newline, not NUL. *)
Definition css_string_safe (c : ascii) : bool :=
  negb (Ascii.eqb c dquote) && negb (css_newline c) && negb (nat_of_ascii c =? 0)%nat.

(** [s.split(sep)] for a one-character separator. *)
Fixpoint split_char (sep : ascii) (s : string) : list string :=
  match s with
  | EmptyString => [EmptyString]
  | String c s' =>
      let parts := split_char sep s' in
      if Ascii.eqb c sep then EmptyString :: parts
      else match parts with
           | x :: xs => String c x :: xs
           | [] => [String c EmptyString]
           end
  end.

(** [firstValidLink.split("/").pop()], the pattern of the second lookup
    [a[href*=...]]. *)
Definition last_segment (h : string) : string := List.last (split_char "/" h) "".

(* ------------------------------------------------------------------ *)
(** ** Test "Goal sorting is DESC" *)

(** [href !== null && (href.includes("match") || href.includes("game") ||
    href.includes("stats"))], then [.slice(0, 3)]. *)
Fixpoint stats_hrefs (hrefs : list (option string)) : list string :=
  match hrefs with
  | [] => []
  | Some h :: t =>
      if includes h "match" || includes h "game" || includes h "stats"
      then h :: stats_hrefs t else stats_hrefs t
  | None :: t => stats_hrefs t
  end.

Definition matchLinks (hrefs : list (option string)) : list string :=
  firstn 3 (stats_hrefs hrefs).

Record GoalScorer := mkScorer { scorer_text : string; goals : Z }.

(** [\d]: an ASCII digit. *)
Definition is_digit (c : ascii) : bool :=
  let n := nat_of_ascii c in (48 <=? n)%nat && (n <=? 57)%nat.

Fixpoint digit_run (s : string) : string :=
  match s with
  | String c s' => if is_digit c then String c (digit_run s') else EmptyString
  | EmptyString => EmptyString
  end.

(** [text.match(/(\d+)/)]: the leftmost maximal run of digits. *)
Fixpoint first_digit_run (s : string) : option string :=
  match s with
  | EmptyString => None
  | String c s' => if is_digit c then Some (digit_run s) else first_digit_run s'
  end.

Definition digit_value (c : ascii) : Z := Z.of_nat (nat_of_ascii c) - 48.

(** The exact value of a string of decimal digits, read onto [acc]. *)
Fixpoint parse_decimal (acc : Z) (s : string) : Z :=
  match s with
  | EmptyString => acc
  | String c s' => parse_decimal (acc * 10 + digit_value c) s'
  end.

(** The nearest double to a non-negative integer (ties to even): exact up
    to 2^53, above that rounded to 53 significant bits. A value that rounds
    to 2^1024 or beyond is [Infinity], encoded as 2^1024, which keeps the
    order of the values this function returns. *)
Definition round_to_double (z : Z) : Z :=
  if z <=? 2 ^ 53 then z
  else
    let e := Z.log2 z - 52 in
    let m := Z.shiftr z e in
    let rem := z - Z.shiftl m e in
    let half := Z.shiftl 1 (e - 1) in
    let m' := if (half <? rem) || ((rem =? half) && Z.odd m) then m + 1 else m in
    let v := Z.shiftl m' e in
    if 2 ^ 1024 <=? v then 2 ^ 1024 else v.

(** [parseInt(d, 10)] on a string of digits: the decimal value rounded to
    the nearest double, as V8 computes it. *)
Definition parseInt10 (d : string) : Z := round_to_double (parse_decimal 0 d).

(** The scorer built from an element's [textContent]. *)
Definition scorer_of (textContent : option string) : GoalScorer :=
  let text := match textContent with
              | Some t => if str_truthy (trim t) then trim t else ""
              | None => ""
              end in
  mkScorer text (match first_digit_run text with
                 | Some d => parseInt10 d
                 | None => 0
                 end).

(** [let isSorted = true; for (let i = 0; i < goalScorers.length - 1; i++)
    { if (goalScorers[i].goals < goalScorers[i + 1].goals) { isSorted =
    false; break; } }]; [fuel] bounds the iterations. *)
Fixpoint desc_loop (g : list GoalScorer) (i fuel : nat) : bool :=
  match fuel with
  | O => true
  | S f =>
      if Z.of_nat i <? Z.of_nat (length g) - 1 then
        match g !! i, g !! S i with
        | Some a, Some b => if goals a <? goals b then false else desc_loop g (S i) f
        | _, _ => true
        end
      else true
  end.

Definition isSorted (g : list GoalScorer) : bool := desc_loop g 0 (length g).

(* ------------------------------------------------------------------ *)
(** ** Tests "league list is visible" and "Match list has correct structure":
    DOM extraction *)

(** The selectors tried for match elements: [SELECTORS.matchItem], then
    the alternatives in source order: div with class containing match,
    div with class containing Match, [[data-match]], li and tr with class
    containing match. *)
Inductive MatchSelector :=
  | MatchItem | DivMatch | DivMatchCap | DataMatch | LiMatch | TrMatch.

Definition match_alternatives : list MatchSelector :=
  [DivMatch; DivMatchCap; DataMatch; LiMatch; TrMatch].

(** The [SELECTORS] fields queried inside a match element. *)
Inductive FieldSelector :=
  | HomeTeamSel | AwayTeamSel | TeamNameSel | ScoreSel
  | MatchDateSel | MatchTimeSel | MatchLinkSel.

(** The object test 3 builds for each match element. *)
Record ExtractedMatch := mkExtracted {
  x_homeTeam : string;
  x_awayTeam : string;
  x_scoreText : string;
  x_date : string;
  x_time : string;
  x_link : string
}.

(** [a || b] on values of type [Element | null | undefined]. *)
Definition or_else {A} (a b : option A) : option A :=
  match a with Some _ => a | None => b end.

(** [s || ""] *)
Definition or_empty (s : string) : string := if str_truthy s then s else "".

Section Dom.

(** The page's DOM: [document.querySelectorAll] on the match selectors,
    [el.querySelectorAll] on the field selectors, [textContent] (with
    [None] for [null]) and [getAttribute]. *)
Variable Element : Type.
Variable doc_querySelectorAll : MatchSelector -> list Element.
Variable el_querySelectorAll : Element -> FieldSelector -> list Element.
Variable textContent : Element -> option string.
Variable getAttribute : Element -> string -> option string.

Definition querySelector (el : Element) (sel : FieldSelector) : option Element :=
  head (el_querySelectorAll el sel).

(** [for (const alt of alternatives) { matchElements = ...; if
    (matchElements.length > 0) break; }] *)
Fixpoint try_alternatives (alts : list MatchSelector) (cur : list Element) : list Element :=
  match alts with
  | [] => cur
  | a :: rest =>
      let found := doc_querySelectorAll a in
      if (0 <? length found)%nat then found else try_alternatives rest found
  end.

Definition find_match_elements : list Element :=
  let matchElements := doc_querySelectorAll MatchItem in
  if (length matchElements =? 0)%nat then try_alternatives match_alternatives matchElements
  else matchElements.

(** [x?.textContent?.trim() || ""] *)
Definition text_of (o : option Element) : string :=
  match o with
  | Some e => match textContent e with Some t => or_empty (trim t) | None => "" end
  | None => ""
  end.

Definition extract_match (el : Element) : ExtractedMatch :=
  let homeTeamEl :=
    or_else (querySelector el HomeTeamSel)
      (or_else (querySelector el TeamNameSel)
         (nth_error (el_querySelectorAll el TeamNameSel) 0)) in
  let awayTeamEl :=
    or_else (querySelector el AwayTeamSel)
      (nth_error (el_querySelectorAll el TeamNameSel) 1) in
  let linkEl := querySelector el MatchLinkSel in
  mkExtracted (text_of homeTeamEl) (text_of awayTeamEl)
    (text_of (querySelector el ScoreSel))
    (text_of (querySelector el MatchDateSel))
    (text_of (querySelector el MatchTimeSel))
    (match linkEl with
     | Some e => match getAttribute e "href" with Some h => or_empty h | None => "" end
     | None => ""
     end).

(** The [page.evaluate] of test 3. *)
Definition extract_matches : list ExtractedMatch :=
  map extract_match find_match_elements.

End Dom.

(** [const hasTeams = match.homeTeam && match.awayTeam; if (hasTeams)
    validCount++;] *)
Definition validCount (ms : list ExtractedMatch) : nat :=
  count_where (fun m => str_truthy (x_homeTeam m) && str_truthy (x_awayTeam m)) ms.

(** The sum of the values of a counter object. *)
Definition counter_total {K} `{Countable K} (m : gmap K Z) : Z :=
  map_fold (fun _ v acc => v + acc) 0 m.

(** The sum of the numbers a string-keyed counter object holds. *)
Definition counter_total_js (obj : gmap string JSValue) : Z :=
  map_fold (fun _ v acc => match v with JNum z => z + acc | _ => acc end) 0 obj.

(** A sample match element [0] with two [teamName] children [1] and [2]
    and no home- or away-specific children. *)
Definition sample_querySelectorAll (e : nat) (sel : FieldSelector) : list nat :=
  match e, sel with
  | 0%nat, TeamNameSel => [1%nat; 2%nat]
  | _, _ => []
  end.

Definition sample_textContent (e : nat) : option string :=
  match e with
  | 1%nat => Some " Maccabi Haifa "
  | 2%nat => Some "Hapoel Tel Aviv"
  | _ => None
  end.

Definition sample_getAttribute (e : nat) (a : string) : option string := None.

(* ------------------------------------------------------------------ *)
(** ** Lemmas on JavaScript strings *)

Lemma trim_start_all_ws (s : string) :
  forallb is_js_whitespace (list_ascii_of_string (trim_start s))
  = forallb is_js_whitespace (list_ascii_of_string s).
Proof.
  induction s as [|c s IH]; simpl; [reflexivity|].
  destruct (is_js_whitespace c) eqn:Hc; simpl; [exact IH|now rewrite Hc].
Qed.

Lemma trim_end_empty (s : string) :
  trim_end s = EmptyString <-> forallb is_js_whitespace (list_ascii_of_string s) = true.
Proof.
  induction s as [|c s IH]; simpl; [tauto|].
  destruct (trim_end s) eqn:Ht.
  - assert (Hs : forallb is_js_whitespace (list_ascii_of_string s) = true) by (apply IH; reflexivity).
    rewrite Hs, andb_true_r.
    destruct (is_js_whitespace c); split; congruence.
  - assert (Hs : forallb is_js_whitespace (list_ascii_of_string s) <> true)
      by (intros H; apply IH in H; discriminate).
    apply not_true_is_false in Hs. rewrite Hs, andb_false_r.
    split; discriminate.
Qed.

Lemma trim_empty (s : string) :
  trim s = EmptyString <-> forallb is_js_whitespace (list_ascii_of_string s) = true.
Proof. unfold trim. rewrite trim_end_empty. now rewrite trim_start_all_ws. Qed.

Lemma has_non_whitespace_forallb (s : string) :
  has_non_whitespace s <-> forallb is_js_whitespace (list_ascii_of_string s) = false.
Proof.
  unfold has_non_whitespace.
  induction s as [|c s IH]; simpl.
  - split; [intros (? & [] & _)|discriminate].
  - rewrite andb_false_iff, <- IH. split.
    + intros (x & [<-|Hin] & Hx); [left; exact Hx|right; exists x; auto].
    + intros [Hc|(x & Hin & Hx)]; [exists c; auto|exists x; auto].
Qed.

Lemma trim_length_pos (s : string) :
  (0 <? Z.of_nat (String.length (trim s))) = true <-> has_non_whitespace s.
Proof.
  rewrite has_non_whitespace_forallb, Z.ltb_lt.
  destruct (trim s) eqn:Ht.
  - apply trim_empty in Ht. rewrite Ht. simpl. split; [lia|discriminate].
  - split; [|intros _; simpl; lia].
    intros _. apply not_true_is_false. rewrite <- trim_empty, Ht. discriminate.
Qed.

Lemma has_non_whitespace_nonempty (s : string) :
  has_non_whitespace s -> s <> EmptyString.
Proof. intros (c & Hin & _) ->. destruct Hin. Qed.

Lemma str_truthy_iff (s : string) : str_truthy s = true <-> s <> EmptyString.
Proof. destruct s; simpl; split; congruence. Qed.

(* ------------------------------------------------------------------ *)
(** ** Lemmas on the report *)

Lemma count_where_cons {A} (p : A -> bool) (x : A) (l : list A) :
  count_where p (x :: l) = ((if p x then 1 else 0) + count_where p l)%nat.
Proof. unfold count_where. simpl. destruct (p x); reflexivity. Qed.

Lemma tally_by_lookup {A K} `{Countable K} (key : A -> option K) (l : list A)
    (m : gmap K Z) (k : K) :
  tally_by key l m !! k =
  match m !! k with
  | Some v => Some (v + Z.of_nat (count_where (key_is key k) l))
  | None => as_count (count_where (key_is key k) l)
  end.
Proof.
  unfold tally_by. revert m. induction l as [|r l IH]; intros m; simpl.
  - unfold count_where; simpl. destruct (m !! k); [f_equal; lia|reflexivity].
  - rewrite IH, count_where_cons. unfold key_is.
    destruct (key r) as [k'|] eqn:Hk.
    + destruct (decide (k' = k)) as [->|Hne].
      * rewrite bool_decide_true by reflexivity. unfold bump.
        rewrite lookup_insert_eq. unfold as_count.
        destruct (m !! k); simpl; f_equal; lia.
      * rewrite bool_decide_false by congruence. unfold bump.
        rewrite lookup_insert_ne by congruence. reflexivity.
    + rewrite bool_decide_false by discriminate. reflexivity.
Qed.

Lemma tally_by_empty {A K} `{Countable K} (key : A -> option K) (l : list A) (k : K) :
  tally_by key l ∅ !! k = as_count (count_where (key_is key k) l).
Proof. rewrite tally_by_lookup, lookup_empty. reflexivity. Qed.

Lemma fold_types_spec (l : list NetworkRequest) (c : TypeCounts) :
  api (fold_types l c) = api c + Z.of_nat (count_where (type_is TApi) l) /\
  data (fold_types l c) = data c + Z.of_nat (count_where (type_is TData) l) /\
  assets (fold_types l c) = assets c + Z.of_nat (count_where (type_is TAssets) l) /\
  other (fold_types l c) = other c + Z.of_nat (count_where (type_is TOther) l).
Proof.
  revert c. induction l as [|r l IH]; intros c; simpl.
  - unfold count_where; simpl. lia.
  - unfold fold_types in *. simpl. rewrite !count_where_cons.
    specialize (IH (count_type (request_type (url r)) c)).
    unfold type_is at 1 3 5 7.
    destruct (request_type (url r)) eqn:Ht; simpl in *;
      repeat case_bool_decide; try congruence;
      lia.
Qed.

Lemma count_types_total (l : list NetworkRequest) :
  (count_where (type_is TApi) l + count_where (type_is TData) l
   + count_where (type_is TAssets) l + count_where (type_is TOther) l)%nat = length l.
Proof.
  induction l as [|r l IH]; [reflexivity|].
  rewrite !count_where_cons. simpl length. unfold type_is in *.
  destruct (request_type (url r));
    repeat case_bool_decide; try congruence;
    lia.
Qed.

Section ReportFacts.

Variable new_URL : string -> Exc URL.

Lemma forEach_spec (reqs : list NetworkRequest) (rep : RequestReport) :
  forEach new_URL reqs rep =
  Ok (mkReport (totalRequests rep)
        (tally_prop key_method reqs (requestsByMethod rep))
        (tally_prop (key_domain new_URL) reqs (requestsByDomain rep))
        (fold_types reqs (requestsByType rep))
        (tally_by key_status reqs (statusCodes rep))).
Proof.
  revert rep. induction reqs as [|r reqs IH]; intros rep; simpl.
  - destruct rep; reflexivity.
  - unfold report_step. unfold key_domain at 1.
    destruct (new_URL (url r)) eqn:Hu; simpl; rewrite IH; simpl;
      unfold tally_by, tally_prop, fold_types; simpl; unfold key_domain at 2; rewrite Hu;
      unfold key_status; destruct (status r) as [z|]; simpl;
      try destruct (z =? 0); reflexivity.
Qed.

End ReportFacts.

Example validateMatch_ex1 :
  validateMatch (mkMatch "A" "B" None None "2024-01-01" None None None) = true.
Proof. reflexivity. Qed.

Example validateMatch_ex2 :
  validateMatch (mkMatch "" "B" None None "x" None None None) = false.
Proof. reflexivity. Qed.

Example trim_ex : trim "  a b " = "a b".
Proof. reflexivity. Qed.

Lemma isPlayedMatch_false_iff (m : Match) :
  isPlayedMatch m = false <-> homeScore m = None \/ awayScore m = None.
Proof.
  unfold isPlayedMatch.
  destruct (homeScore m), (awayScore m); simpl; split; intros H;
    first [reflexivity | discriminate | now left | now right
          | destruct H as [H|H]; discriminate].
Qed.

Lemma update_first_app {A} (p : A -> bool) (f : A -> A) (pre suf : list A) (x : A) :
  Forall (fun y => p y = false) pre -> p x = true ->
  update_first p f (pre ++ x :: suf) = pre ++ f x :: suf.
Proof.
  intros Hpre Hx. induction Hpre as [|y pre Hy _ IH]; simpl.
  - now rewrite Hx.
  - now rewrite Hy, IH.
Qed.

Lemma opt_str_truthy_iff (o : option string) :
  opt_str_truthy o = true <-> exists v, o = Some v /\ v <> "".
Proof.
  destruct o as [v|]; simpl.
  - rewrite str_truthy_iff. split; [eauto|]. intros (w & Hw & Hne). congruence.
  - split; [discriminate|]. intros (w & Hw & _). discriminate.
Qed.

Lemma count_where_ext {A} (p q : A -> bool) (l : list A) :
  (forall x, p x = q x) -> count_where p l = count_where q l.
Proof.
  intros Hpq. induction l as [|x l IH]; [reflexivity|].
  rewrite !count_where_cons, Hpq, IH. reflexivity.
Qed.

Lemma generate_report_spec (new_URL : string -> Exc URL) (reqs : list NetworkRequest) :
  generate_report new_URL reqs =
  Ok (mkReport (Z.of_nat (length reqs))
        (tally_prop key_method reqs ∅)
        (tally_prop (key_domain new_URL) reqs ∅)
        (fold_types reqs (mkTypeCounts 0 0 0 0))
        (tally_by key_status reqs ∅)).
Proof. unfold generate_report. now rewrite forEach_spec. Qed.

(* ------------------------------------------------------------------ *)
(** ** Validators *)

(** C7: a match whose two scores are both defined numbers is played;
    a match with either score absent is not. *)
Theorem isPlayedMatch_iff_scores (m : Match) :
  (isPlayedMatch m = true <-> exists h a, homeScore m = Some h /\ awayScore m = Some a) /\
  (isPlayedMatch m = false <-> homeScore m = None \/ awayScore m = None).
Proof.
  split; [|apply isPlayedMatch_false_iff].
  unfold isPlayedMatch.
  destruct (homeScore m) as [h|], (awayScore m) as [a|]; simpl; split;
    try discriminate; intros H.
  - exists h, a. split; reflexivity.
  - reflexivity.
  - destruct H as (? & ? & _ & H). discriminate.
  - destruct H as (? & ? & H & _). discriminate.
  - destruct H as (? & ? & H & _). discriminate.
Qed.

(** C2 (counterexample): [isUpcomingMatch] holds of a match that has a home
    score but no away score, so an upcoming match may carry a score. *)
Lemma isUpcomingMatch_with_home_score :
  ~ (forall m : Match, isUpcomingMatch m = true ->
       homeScore m = None /\ awayScore m = None /\
       exists t, time m = Some t /\ t <> "").
Proof.
  intros H.
  destruct (H (mkMatch "Maccabi" "Hapoel" (Some 2) None "2024-01-01"
                 (Some "20:00") None None) eq_refl) as [Hh _].
  discriminate.
Qed.

(** C2 (amended): if [isUpcomingMatch m] then [m] is not played, so at
    least one of its two scores is absent, and [m.time] is defined and
    contains a non-white-space character (hence is non-empty). *)
Theorem isUpcomingMatch_spec (m : Match) (H : isUpcomingMatch m = true) :
  (homeScore m = None \/ awayScore m = None) /\
  exists t, time m = Some t /\ has_non_whitespace t /\ t <> "".
Proof.
  unfold isUpcomingMatch in H. apply andb_true_iff in H as [Hp Ht].
  apply negb_true_iff, isPlayedMatch_false_iff in Hp.
  split; [exact Hp|].
  destruct (time m) as [t|]; [|discriminate].
  apply trim_length_pos in Ht.
  exists t. split; [reflexivity|]. split; [exact Ht|].
  now apply has_non_whitespace_nonempty.
Qed.

Lemma isUpcomingMatch_spec_witness :
  isUpcomingMatch (mkMatch "Maccabi" "Hapoel" (Some 2) None "2024-01-01"
                     (Some "20:00") None None) = true /\
  ((Some 2 = None \/ @None Z = None) /\
   exists t, Some "20:00" = Some t /\ has_non_whitespace t /\ t <> "").
Proof.
  split; [reflexivity|].
  exact (isUpcomingMatch_spec (mkMatch "Maccabi" "Hapoel" (Some 2) None "2024-01-01"
                                 (Some "20:00") None None) eq_refl).
Defined.

(** C8 (counterexample): a home team name made only of white space is a
    non-empty string, yet [validateMatch] rejects the match. *)
Lemma validateMatch_blank_home_team :
  ~ (forall m : Match, validateMatch m = true <->
       homeTeam m <> "" /\ awayTeam m <> "" /\ date m <> "").
Proof.
  intros H.
  assert (Hv : validateMatch (mkMatch " " "B" None None "2024-01-01" None None None) = true).
  { apply H. simpl. repeat split; discriminate. }
  vm_compute in Hv. discriminate.
Qed.

(** C8 (amended): [validateMatch m] holds iff both team names contain a
    non-white-space character (so are non-empty after trimming) and the
    date is a non-empty string; in particular it accepts
    [{homeTeam:"A", awayTeam:"B", date:"2024-01-01"}] and rejects
    [{homeTeam:"", awayTeam:"B", date:"x"}]. *)
Theorem validateMatch_spec (m : Match) :
  (validateMatch m = true <->
     has_non_whitespace (homeTeam m) /\ has_non_whitespace (awayTeam m) /\ date m <> "") /\
  validateMatch (mkMatch "A" "B" None None "2024-01-01" None None None) = true /\
  validateMatch (mkMatch "" "B" None None "x" None None None) = false.
Proof.
  split; [|split; reflexivity].
  unfold validateMatch. rewrite !andb_true_iff, !trim_length_pos, !str_truthy_iff.
  split.
  - intros ((((((H1 & H2) & H3) & _) & _) & H4) & H5). auto.
  - intros (H1 & H2 & H3).
    repeat split; auto using has_non_whitespace_nonempty.
Qed.

(* ------------------------------------------------------------------ *)
(** ** Network observer *)

(** C3 (code bug): [cached = !!(cacheControl || etag)] tests the header
    values for truthiness, not the headers for presence: a response
    carrying a [cache-control] header whose value is the empty string
    leaves the matched record with [cached = false]. *)
Lemma cached_flag_empty_header :
  ~ (forall (reqs pre suf : list NetworkRequest) (r : NetworkRequest) (ev : ResponseEvent),
       reqs = pre ++ r :: suf ->
       Forall (fun x => matches_response ev x = false) pre ->
       matches_response ev r = true ->
       exists r', on_response reqs ev = pre ++ r' :: suf /\
         (cached r' = Some true <->
            is_Some (resp_headers ev !! "cache-control") \/ is_Some (resp_headers ev !! "etag"))).
Proof.
  intros H.
  set (r := mkRequest "https://www.one.co.il/live/" "GET" 1000 None None None).
  set (ev := mkResponse "https://www.one.co.il/live/" 200 {[ "cache-control" := "" ]} 1040).
  destruct (H [r] [] [] r ev eq_refl ltac:(constructor) eq_refl) as (r' & Heq & Hiff).
  vm_compute in Heq. injection Heq as <-.
  assert (Hc : is_Some (resp_headers ev !! "cache-control")) by (vm_compute; eauto).
  pose proof (proj2 Hiff (or_introl Hc)) as Hf. discriminate Hf.
Qed.

(** X24: when a response event is matched to a record (the first
    record satisfying the [find] predicate), that record's [cached] flag is
    set, and it is [true] iff the response has a [cache-control] header or
    an [etag] header whose value is a non-empty string. *)
Theorem on_response_cached_flag (reqs pre suf : list NetworkRequest) (r : NetworkRequest)
    (ev : ResponseEvent)
    (Hreqs : reqs = pre ++ r :: suf)
    (Hpre : Forall (fun x => matches_response ev x = false) pre)
    (Hr : matches_response ev r = true) :
  exists r', on_response reqs ev = pre ++ r' :: suf /\ cached r' <> None /\
    (cached r' = Some true <->
       (exists v, resp_headers ev !! "cache-control" = Some v /\ v <> "") \/
       (exists v, resp_headers ev !! "etag" = Some v /\ v <> "")).
Proof.
  subst reqs. exists (record_response ev r).
  split; [unfold on_response; now apply update_first_app|].
  split; [discriminate|].
  simpl. rewrite <- !opt_str_truthy_iff. split.
  - intros Hc. injection Hc as Hc. now apply orb_true_iff.
  - intros Hc. f_equal. now apply orb_true_iff.
Qed.

Lemma on_response_cached_flag_witness :
  matches_response (mkResponse "https://www.one.co.il/live/" 200 {[ "etag" := "W/1" ]} 1040)
    (mkRequest "https://www.one.co.il/live/" "GET" 1000 None None None) = true /\
  exists r', on_response [mkRequest "https://www.one.co.il/live/" "GET" 1000 None None None]
               (mkResponse "https://www.one.co.il/live/" 200 {[ "etag" := "W/1" ]} 1040)
             = [] ++ r' :: [] /\ cached r' <> None /\
    (cached r' = Some true <->
       (exists v, resp_headers (mkResponse "https://www.one.co.il/live/" 200 {[ "etag" := "W/1" ]} 1040)
                    !! "cache-control" = Some v /\ v <> "") \/
       (exists v, resp_headers (mkResponse "https://www.one.co.il/live/" 200 {[ "etag" := "W/1" ]} 1040)
                    !! "etag" = Some v /\ v <> "")).
Proof.
  split; [reflexivity|].
  apply (on_response_cached_flag [mkRequest "https://www.one.co.il/live/" "GET" 1000 None None None]
           [] [] (mkRequest "https://www.one.co.il/live/" "GET" 1000 None None None)
           (mkResponse "https://www.one.co.il/live/" 200 {[ "etag" := "W/1" ]} 1040)).
  - reflexivity.
  - constructor.
  - reflexivity.
Defined.

(** C4: two requests for the same URL issued in the same millisecond; the
    first response also arrives in that millisecond, so the first record
    gets [responseTime = 0], which the [find] predicate
    [!req.responseTime] treats as unassigned.  The second response is then
    attributed to the first record again, and the second record, the
    earliest one with no [responseTime], is left unmatched. *)
Theorem on_response_rematches_zero_response_time :
  let u := "https://www.one.co.il/live/" in
  let reqs := on_request (on_request [] u "GET" 1000) u "GET" 1000 in
  let after_first := on_response reqs (mkResponse u 200 ∅ 1000) in
  after_first = [mkRequest u "GET" 1000 (Some 0) (Some false) (Some 200);
                 mkRequest u "GET" 1000 None None None] /\
  on_response after_first (mkResponse u 200 ∅ 1040) =
    [mkRequest u "GET" 1000 (Some 40) (Some false) (Some 200);
     mkRequest u "GET" 1000 None None None].
Proof. split; vm_compute; reflexivity. Qed.

(* ------------------------------------------------------------------ *)
(** ** HTTP request report *)

(** C1 (counterexample): a URL matching a data pattern (["live"]) and an
    assets pattern ([".js"]) is counted as assets, not as data: the
    [else if] chain tests the assets patterns before the data ones. *)
Lemma requestsByType_live_js_is_assets :
  ~ (forall (new_URL : string -> Exc URL) (r : NetworkRequest),
       data_pattern (url r) = true -> assets_pattern (url r) = true ->
       match generate_report new_URL [r] with
       | Ok rep => data (requestsByType rep) = 1
       | Throw _ => False
       end).
Proof.
  intros H.
  specialize (H (fun s => Ok (mkURL s "www.one.co.il"))
                (mkRequest "https://www.one.co.il/live/app.js" "GET" 1000 None None None)
                eq_refl eq_refl).
  vm_compute in H. discriminate.
Qed.

(** C1 (amended): the report never throws; every request is counted under
    exactly one type (the four counters add up to [totalRequests]); the
    type is decided by substring tests on the URL in the order of the
    [else if] chain: api when the URL contains ["api"] or ["data"], else
    assets when it contains [".js"], [".css"], [".png"] or [".jpg"], else
    data when it contains ["match"] or ["live"], else other. *)
Theorem requestsByType_counts (new_URL : string -> Exc URL) (reqs : list NetworkRequest) :
  match generate_report new_URL reqs with
  | Ok rep =>
      api (requestsByType rep) = Z.of_nat (count_where (type_is TApi) reqs) /\
      data (requestsByType rep) = Z.of_nat (count_where (type_is TData) reqs) /\
      assets (requestsByType rep) = Z.of_nat (count_where (type_is TAssets) reqs) /\
      other (requestsByType rep) = Z.of_nat (count_where (type_is TOther) reqs) /\
      api (requestsByType rep) + data (requestsByType rep)
        + assets (requestsByType rep) + other (requestsByType rep) = totalRequests rep /\
      (forall u, request_type u = TApi <-> api_pattern u = true) /\
      (forall u, request_type u = TAssets <->
                 api_pattern u = false /\ assets_pattern u = true) /\
      (forall u, request_type u = TData <->
                 api_pattern u = false /\ assets_pattern u = false /\ data_pattern u = true) /\
      (forall u, request_type u = TOther <->
                 api_pattern u = false /\ assets_pattern u = false /\ data_pattern u = false)
  | Throw _ => False
  end.
Proof.
  rewrite generate_report_spec. simpl.
  destruct (fold_types_spec reqs (mkTypeCounts 0 0 0 0)) as (H1 & H2 & H3 & H4).
  simpl in H1, H2, H3, H4. rewrite H1, H2, H3, H4.
  pose proof (count_types_total reqs) as Ht.
  split; [lia|]. split; [lia|]. split; [lia|]. split; [lia|]. split; [lia|].
  unfold request_type, api_pattern, assets_pattern, data_pattern.
  repeat split; intros;
    repeat match goal with
    | H : _ /\ _ |- _ => destruct H
    | H : context [if ?b then _ else _] |- _ => destruct b eqn:?
    | |- context [if ?b then _ else _] => destruct b eqn:?
    end; congruence.
Qed.

Lemma bump_prop_lookup_ne (o : gmap string JSValue) (k k' : string) :
  k' <> k -> bump_prop o k' !! k = o !! k.
Proof.
  intros Hne. unfold bump_prop, obj_set_primitive.
  destruct (String.eqb k' "__proto__"); [reflexivity|]. now rewrite lookup_insert_ne.
Qed.

Lemma bump_prop_lookup_eq (o : gmap string JSValue) (k : string) :
  object_prototype_get k = None ->
  bump_prop o k !! k = Some (plus_one (or_zero (o !! k))).
Proof.
  intros Hk. unfold bump_prop, obj_set_primitive, obj_get.
  destruct (String.eqb_spec k "__proto__") as [->|Hp]; [discriminate|].
  rewrite lookup_insert_eq. destruct (o !! k); [reflexivity|]. now rewrite Hk.
Qed.

Lemma plus_one_or_zero_num (z : Z) : plus_one (or_zero (Some (JNum z))) = JNum (z + 1).
Proof. simpl. destruct (Z.eqb_spec z 0) as [->|]; reflexivity. Qed.

(** On a key that names no property of [Object.prototype], the counter
    object counts like a map. *)
Lemma tally_prop_lookup {A} (key : A -> option string) (l : list A)
    (o : gmap string JSValue) (k : string) :
  object_prototype_get k = None ->
  (o !! k = None ->
   tally_prop key l o !! k = option_map JNum (as_count (count_where (key_is key k) l))) /\
  (forall z, o !! k = Some (JNum z) ->
   tally_prop key l o !! k = Some (JNum (z + Z.of_nat (count_where (key_is key k) l)))).
Proof.
  intros Hk. unfold tally_prop. revert o. induction l as [|r l IH]; intros o; simpl.
  - unfold count_where; simpl. split; [intros ->; reflexivity|].
    intros z ->. do 2 f_equal. lia.
  - rewrite count_where_cons. change (key_is key k r) with (bool_decide (key r = Some k)).
    destruct (key r) as [k'|] eqn:Hr.
    + destruct (decide (k' = k)) as [->|Hne].
      * rewrite bool_decide_true by reflexivity.
        destruct (IH (bump_prop o k)) as [_ IH2]. split.
        -- intros Ho. rewrite (IH2 1).
           ++ unfold as_count. simpl. do 2 f_equal. lia.
           ++ rewrite bump_prop_lookup_eq by exact Hk. now rewrite Ho.
        -- intros z Ho. rewrite (IH2 (z + 1)); [do 2 f_equal; lia|].
           rewrite bump_prop_lookup_eq, Ho by exact Hk. apply f_equal, plus_one_or_zero_num.
      * rewrite bool_decide_false by congruence. simpl.
        destruct (IH (bump_prop o k')) as [IH1 IH2].
        rewrite bump_prop_lookup_ne in IH1, IH2 by exact Hne. exact (conj IH1 IH2).
    + rewrite bool_decide_false by discriminate. apply IH.
Qed.

(** X23: the report never throws, whatever the URLs; for a key that names
    no [Object.prototype] property, [requestsByMethod] holds the number of
    requests with that method and [requestsByDomain] the number of requests
    whose URL parses with that host name (no entry for 0); a URL that does
    not parse is counted under no host name. *)
Theorem report_ordinary_keys (new_URL : string -> Exc URL) (reqs : list NetworkRequest)
    (k : string) (Hk : object_prototype_get k = None) :
  match generate_report new_URL reqs with
  | Ok rep =>
      requestsByMethod rep !! k =
        option_map JNum (as_count (count_where (fun r => bool_decide (method r = k)) reqs)) /\
  requestsByDomain rep !! k =
        option_map JNum (as_count (count_where
                    (fun r => match new_URL (url r) with
                              | Ok u => bool_decide (hostname u = k)
                              | Throw _ => false
                              end) reqs))
  | Throw _ => False
  end.
Proof.
  rewrite generate_report_spec. cbn -[tally_prop]. split.
  - rewrite (proj1 (tally_prop_lookup key_method reqs ∅ k Hk)) by apply lookup_empty.
    do 2 f_equal. apply count_where_ext.
    intros r. unfold key_is, key_method. apply bool_decide_ext. split; congruence.
  - rewrite (proj1 (tally_prop_lookup (key_domain new_URL) reqs ∅ k Hk)) by apply lookup_empty.
    do 2 f_equal. apply count_where_ext.
    intros r. unfold key_is, key_domain.
    destruct (new_URL (url r)) as [u|e].
    + apply bool_decide_ext. split; congruence.
    + apply bool_decide_false. discriminate.
Qed.

Lemma report_ordinary_keys_witness :
  object_prototype_get "www.one.co.il" = None /\
  match generate_report
          (fun s => if String.eqb s "not a url" then Throw (TypeError "Invalid URL")
                    else Ok (mkURL s "www.one.co.il"))
          [mkRequest "https://www.one.co.il/live/" "GET" 1000 None None (Some 200);
           mkRequest "not a url" "GET" 1001 None None None] with
  | Ok rep =>
      requestsByMethod rep !! "www.one.co.il" =
        option_map JNum (as_count (count_where (fun r => bool_decide (method r = "www.one.co.il"))
          [mkRequest "https://www.one.co.il/live/" "GET" 1000 None None (Some 200);
           mkRequest "not a url" "GET" 1001 None None None])) /\
      requestsByDomain rep !! "www.one.co.il" =
        option_map JNum (as_count (count_where
          (fun r => match (fun s => if String.eqb s "not a url" then Throw (TypeError "Invalid URL")
                                    else Ok (mkURL s "www.one.co.il")) (url r) with
                    | Ok u => bool_decide (hostname u = "www.one.co.il")
                    | Throw _ => false
                    end)
          [mkRequest "https://www.one.co.il/live/" "GET" 1000 None None (Some 200);
           mkRequest "not a url" "GET" 1001 None None None]))
  | Throw _ => False
  end.
Proof. split; [reflexivity|]. apply report_ordinary_keys. reflexivity. Defined.

(** C5 (code bug): [requestsByMethod] is an object created by [{}], so
    [requestsByMethod[m] || 0] reads the properties it inherits from
    [Object.prototype]. For a request with method ["constructor"] (a valid
    method token) the entry becomes the string
    ["function Object() { [native code] }1"], and a request with method
    ["__proto__"] is counted nowhere, since the inherited [__proto__]
    setter drops the value; the claim has [{GET: 1, constructor: 1,
    __proto__: 1}]. *)
Theorem requestsByMethod_prototype_keys (new_URL : string -> Exc URL) (u : string) :
  match generate_report new_URL [mkRequest u "GET" 1000 None None None;
                                 mkRequest u "constructor" 1001 None None None;
                                 mkRequest u "__proto__" 1002 None None None] with
  | Ok rep =>
      requestsByMethod rep =
        {[ "GET" := JNum 1; "constructor" := JStr "function Object() { [native code] }1" ]}
  | Throw _ => False
  end.
Proof. rewrite generate_report_spec. cbn -[tally_prop]. vm_compute. reflexivity. Qed.

(** C6 (code bug): [requestsByDomain] is an object created by [{}]. For
    the URLs [http://constructor/] and [http://__proto__/], which parse with
    the host names ["constructor"] and ["__proto__"], the report stores the
    string ["function Object() { [native code] }1"] under ["constructor"]
    and counts the second request under no host name; the claim has
    [{constructor: 1, __proto__: 1}]. *)
Theorem requestsByDomain_prototype_hosts (new_URL : string -> Exc URL)
    (H1 : new_URL "http://constructor/" = Ok (mkURL "http://constructor/" "constructor"))
    (H2 : new_URL "http://__proto__/" = Ok (mkURL "http://__proto__/" "__proto__")) :
  match generate_report new_URL [mkRequest "http://constructor/" "GET" 1000 None None None;
                                 mkRequest "http://__proto__/" "GET" 1001 None None None] with
  | Ok rep =>
      requestsByDomain rep = {[ "constructor" := JStr "function Object() { [native code] }1" ]}
  | Throw _ => False
  end.
Proof.
  rewrite generate_report_spec. cbn -[tally_prop].
  unfold tally_prop, key_domain. cbn [fold_left url]. rewrite H1, H2.
  vm_compute. reflexivity.
Qed.

Lemma requestsByDomain_prototype_hosts_witness :
  (fun s => if String.eqb s "http://constructor/" then Ok (mkURL s "constructor")
            else if String.eqb s "http://__proto__/" then Ok (mkURL s "__proto__")
            else Throw (TypeError "Invalid URL")) "http://constructor/"
    = Ok (mkURL "http://constructor/" "constructor") /\
  (fun s => if String.eqb s "http://constructor/" then Ok (mkURL s "constructor")
            else if String.eqb s "http://__proto__/" then Ok (mkURL s "__proto__")
            else Throw (TypeError "Invalid URL")) "http://__proto__/"
    = Ok (mkURL "http://__proto__/" "__proto__") /\
  match generate_report
          (fun s => if String.eqb s "http://constructor/" then Ok (mkURL s "constructor")
                    else if String.eqb s "http://__proto__/" then Ok (mkURL s "__proto__")
                    else Throw (TypeError "Invalid URL"))
          [mkRequest "http://constructor/" "GET" 1000 None None None;
           mkRequest "http://__proto__/" "GET" 1001 None None None] with
  | Ok rep =>
      requestsByDomain rep = {[ "constructor" := JStr "function Object() { [native code] }1" ]}
  | Throw _ => False
  end.
Proof.
  split; [reflexivity|]. split; [reflexivity|].
  apply requestsByDomain_prototype_hosts; reflexivity.
Defined.

(* ================================================================== *)
(** * Further properties of the code *)

Lemma trim_end_head (c : ascii) (s : string) :
  is_js_whitespace c = false -> trim_end (String c s) = String c (trim_end s).
Proof. intros Hc. simpl. destruct (trim_end s); [now rewrite Hc|reflexivity]. Qed.

Lemma trim_end_idem (s : string) : trim_end (trim_end s) = trim_end s.
Proof.
  induction s as [|c s IH]; [reflexivity|]. simpl.
  destruct (trim_end s) as [|d t] eqn:Ht.
  - destruct (is_js_whitespace c) eqn:Hc; [reflexivity|]. simpl. now rewrite Hc.
  -
    change (trim_end (String c (String d t))) with
      (match trim_end (String d t) with
       | EmptyString => if is_js_whitespace c then EmptyString else String c EmptyString
       | _ => String c (trim_end (String d t))
       end).
    rewrite IH. reflexivity.
Qed.

Lemma trim_start_of_trim (s : string) : trim_start (trim s) = trim s.
Proof.
  unfold trim. induction s as [|c s IH]; [reflexivity|]. simpl.
  destruct (is_js_whitespace c) eqn:Hc; [exact IH|].
  rewrite trim_end_head by exact Hc. simpl. now rewrite Hc.
Qed.

Lemma trim_idem (s : string) : trim (trim s) = trim s.
Proof.
  unfold trim at 1. rewrite trim_start_of_trim. unfold trim. apply trim_end_idem.
Qed.

Lemma trimmed_truthy (s : string) :
  trim s = s -> str_truthy s = true <-> has_non_whitespace s.
Proof.
  intros Ht. rewrite <- trim_length_pos, Ht, str_truthy_iff, Z.ltb_lt.
  destruct s; simpl; split; intros H; try congruence; lia.
Qed.

(** X1: [validateTeamName] accepts exactly the strings that contain a
    character other than white space; [null] and [undefined] are
    rejected. *)
Theorem validateTeamName_spec (t : nullable_string) :
  validateTeamName t = true <-> exists s, t = JSString s /\ has_non_whitespace s.
Proof.
  destruct t as [| |s]; simpl.
  - split; [discriminate|]. intros (? & H & _). discriminate.
  - split; [discriminate|]. intros (? & H & _). discriminate.
  - rewrite trim_length_pos. split; [eauto|]. intros (s' & H & Hs). congruence.
Qed.

(** X2: [validateMatch m] is the conjunction of [validateTeamName] on both
    team names and a non-empty date. *)
Theorem validateMatch_team_names (m : Match) :
  validateMatch m =
  validateTeamName (JSString (homeTeam m)) && validateTeamName (JSString (awayTeam m))
  && str_truthy (date m).
Proof.
  apply Bool.eq_iff_eq_true. unfold validateMatch. simpl.
  rewrite !andb_true_iff, !trim_length_pos, !str_truthy_iff. split.
  - intros ((((((H1 & H2) & H3) & _) & _) & H4) & H5). auto.
  - intros ((H1 & H2) & H3).
    repeat split; auto using has_non_whitespace_nonempty.
Qed.

(* ------------------------------------------------------------------ *)
(** ** Network listeners *)

Lemma update_first_cases {A} (p : A -> bool) (f : A -> A) (l : list A) :
  (update_first p f l = l /\ Forall (fun y => p y = false) l) \/
  exists pre x suf, l = pre ++ x :: suf /\ Forall (fun y => p y = false) pre /\
    p x = true /\ update_first p f l = pre ++ f x :: suf.
Proof.
  induction l as [|x l IH]; simpl.
  - left. split; [reflexivity|constructor].
  - destruct (p x) eqn:Hx.
    + right. exists [], x, l. repeat split; [constructor|exact Hx].
    + destruct IH as [[-> Hl]|(pre & y & suf & -> & Hpre & Hy & ->)].
      * left. split; [reflexivity|constructor; assumption].
      * right. exists (x :: pre), y, suf. repeat split; [constructor; assumption|exact Hy].
Qed.

Lemma Forall_update_first {A} (P : A -> Prop) (p : A -> bool) (f : A -> A) (l : list A) :
  Forall P l -> (forall x, P x -> P (f x)) -> Forall P (update_first p f l).
Proof.
  intros Hl Hf. induction Hl as [|x l Hx Hl IH]; simpl; [constructor|].
  destruct (p x); constructor; auto.
Qed.

Lemma map_update_first {A B} (g : A -> B) (p : A -> bool) (f : A -> A) (l : list A) :
  (forall x, g (f x) = g x) -> map g (update_first p f l) = map g l.
Proof.
  intros Hg. induction l as [|x l IH]; simpl; [reflexivity|].
  destruct (p x); simpl; [now rewrite Hg|now rewrite IH].
Qed.

Lemma matches_response_iff (ev : ResponseEvent) (r : NetworkRequest) :
  matches_response ev r = true <->
  url r = resp_url ev /\ (responseTime r = None \/ responseTime r = Some 0).
Proof.
  unfold matches_response. rewrite andb_true_iff, String.eqb_eq, negb_true_iff.
  destruct (responseTime r) as [t|]; simpl.
  - destruct (Z.eqb_spec t 0) as [->|Ht]; simpl; split; intros [H1 H2]; split; auto;
      try discriminate; destruct H2; congruence.
  - split; intros [H1 H2]; auto.
Qed.

Lemma fold_invariant {S E} (P : S -> Prop) (step : S -> E -> S) (evs : list E) (st : S) :
  P st -> (forall st e, P st -> P (step st e)) -> P (fold_left step evs st).
Proof.
  intros Hst Hstep. revert st Hst.
  induction evs as [|e evs IH]; intros st Hst; simpl; auto.
Qed.

Lemma nondecreasing_cons (a : Z) (l : list Z) :
  nondecreasing (a :: l) = true -> Forall (fun b => a <= b) l /\ nondecreasing l = true.
Proof.
  revert a. induction l as [|b l IH]; intros a H; [split; [constructor|reflexivity]|].
  simpl in H. apply andb_true_iff in H as [Hab Hl]. apply Z.leb_le in Hab.
  destruct (IH b Hl) as [Hb _]. split; [|exact Hl].
  constructor; [exact Hab|]. eapply Forall_impl; [exact Hb|]. simpl. intros; lia.
Qed.

(** X3: a response event never changes the number of records, nor the
    url, method or timestamp of any record. *)
Theorem on_response_keeps_requests (reqs : list NetworkRequest) (ev : ResponseEvent) :
  map (fun r => (url r, method r, timestamp r)) (on_response reqs ev) =
  map (fun r => (url r, method r, timestamp r)) reqs.
Proof. unfold on_response. apply map_update_first. reflexivity. Qed.

(** X4: a response event either leaves the records unchanged, when no
    record has the response's URL and a [responseTime] that is absent or
    0, or updates the first such record only. *)
Theorem on_response_cases (reqs : list NetworkRequest) (ev : ResponseEvent) :
  (on_response reqs ev = reqs /\
   Forall (fun r => ~ (url r = resp_url ev /\
                       (responseTime r = None \/ responseTime r = Some 0))) reqs) \/
  exists pre r suf, reqs = pre ++ r :: suf /\
    Forall (fun x => ~ (url x = resp_url ev /\
                        (responseTime x = None \/ responseTime x = Some 0))) pre /\
    url r = resp_url ev /\ (responseTime r = None \/ responseTime r = Some 0) /\
    on_response reqs ev = pre ++ record_response ev r :: suf.
Proof.
  unfold on_response.
  destruct (update_first_cases (matches_response ev) (record_response ev) reqs)
    as [[Heq Hall]|(pre & r & suf & Hl & Hpre & Hr & Heq)].
  - left. split; [exact Heq|]. eapply Forall_impl; [exact Hall|]. simpl.
    intros x Hx Hm. apply matches_response_iff in Hm. congruence.
  - right. exists pre, r, suf. apply matches_response_iff in Hr as [Hu Ht].
    repeat split; auto.
    eapply Forall_impl; [exact Hpre|]. simpl.
    intros x Hx Hm. apply matches_response_iff in Hm. congruence.
Qed.

(** X5: along any sequence of request and response events seen by the
    [beforeEach] listeners, every record has [responseTime], [status] and
    [cached] either all set or all unset. *)
Theorem run_observer_fields_set_together (evs : list ObserverEvent) :
  Forall (fun r => (responseTime r = None <-> status r = None) /\
                   (responseTime r = None <-> cached r = None)) (run_observer evs).
Proof.
  unfold run_observer. apply fold_invariant; [constructor|].
  intros st e Hst. destruct e as [u m now|ev]; simpl.
  - unfold on_request. apply Forall_app. split; [exact Hst|].
    constructor; [simpl; tauto|constructor].
  - unfold on_response. apply Forall_update_first; [exact Hst|].
    intros x _. simpl. split; split; discriminate.
Qed.

Lemma observer_times (evs : list ObserverEvent) (st : list NetworkRequest) (T : Z) :
  Forall (fun r => timestamp r <= T /\
                   match responseTime r with Some t => 0 <= t | None => True end) st ->
  Forall (fun e => T <= event_time e) evs ->
  nondecreasing (map event_time evs) = true ->
  Forall (fun r => match responseTime r with Some t => 0 <= t | None => True end)
    (fold_left observer_step evs st).
Proof.
  revert st T. induction evs as [|e evs IH]; intros st T Hst Hevs Hmono; simpl.
  - eapply Forall_impl; [exact Hst|]. simpl. tauto.
  - inversion Hevs as [|? ? HTe Hrest]; subst.
    simpl in Hmono. apply nondecreasing_cons in Hmono as [Hafter Hmono].
    apply (IH _ (event_time e)).
    + destruct e as [u m now|ev]; simpl in HTe |- *.
      * unfold on_request. apply Forall_app. split.
        -- eapply Forall_impl; [exact Hst|]. simpl. intros r [H1 H2]. split; [lia|exact H2].
        -- constructor; [simpl; split; [lia|exact I]|constructor].
      * unfold on_response. apply Forall_update_first.
        -- eapply Forall_impl; [exact Hst|]. simpl. intros r [H1 H2]. split; [lia|exact H2].
        -- intros r [H1 H2]. simpl. split; [exact H1|lia].
    + apply List.Forall_forall. intros e' He'.
      rewrite List.Forall_forall in Hafter. apply Hafter. now apply in_map.
    + exact Hmono.
Qed.

(** X6: if the clock read by the listeners never goes backwards along a
    sequence of events, every [responseTime] recorded by the [beforeEach]
    observer is non-negative. *)
Theorem run_observer_response_time_nonneg (evs : list ObserverEvent)
    (Hmono : nondecreasing (map event_time evs) = true) :
  Forall (fun r => match responseTime r with Some t => 0 <= t | None => True end)
    (run_observer evs).
Proof.
  destruct evs as [|e evs]; [constructor|].
  apply (observer_times _ [] (event_time e)); [constructor| |exact Hmono].
  constructor; [lia|].
  simpl in Hmono. apply nondecreasing_cons in Hmono as [Hafter _].
  apply List.Forall_forall. intros e' He'.
  rewrite List.Forall_forall in Hafter. apply Hafter. now apply in_map.
Qed.

Lemma run_observer_response_time_nonneg_witness :
  nondecreasing (map event_time
    [EvRequest "https://www.one.co.il/live/" "GET" 1000;
     EvResponse (mkResponse "https://www.one.co.il/live/" 200 ∅ 1040)]) = true /\
  Forall (fun r => match responseTime r with Some t => 0 <= t | None => True end)
    (run_observer [EvRequest "https://www.one.co.il/live/" "GET" 1000;
                   EvResponse (mkResponse "https://www.one.co.il/live/" 200 ∅ 1040)]).
Proof.
  split; [reflexivity|].
  apply run_observer_response_time_nonneg. reflexivity.
Defined.

(** X7: the listeners of the request-report test never set a record's
    [cached] flag, and a record has a [status] iff it has a
    [responseTime]. *)
Theorem run_report_observer_fields (evs : list ObserverEvent) :
  Forall (fun r => cached r = None /\ (status r = None <-> responseTime r = None))
    (run_report_observer evs).
Proof.
  unfold run_report_observer. apply fold_invariant; [constructor|].
  intros st e Hst. destruct e as [u m now|ev]; simpl.
  - unfold on_request. apply Forall_app. split; [exact Hst|].
    constructor; [simpl; tauto|constructor].
  - unfold on_report_response. apply Forall_update_first; [exact Hst|].
    intros x [Hc _]. simpl. split; [exact Hc|]. split; discriminate.
Qed.

Lemma run_load_acc (resps : list (string * Z)) (acc : list NetworkRequest) :
  fold_left (fun recs p => on_load_response recs (fst p) (snd p)) resps acc =
  acc ++ map (fun p => mkRequest (fst p) "GET" (snd p) (Some 0) None None)
              (List.filter (fun p => load_filter (fst p)) resps).
Proof.
  revert acc. induction resps as [|[u now] resps IH]; intros acc; simpl.
  - now rewrite app_nil_r.
  - rewrite IH. unfold on_load_response. simpl.
    destruct (load_filter u); simpl; [now rewrite <- app_assoc|reflexivity].
Qed.

(** X8: the response listener of the caching test records, in arrival
    order, exactly the responses whose URL contains "api", "data", "match"
    or "live", each as a GET with [responseTime] 0 and the arrival time as
    timestamp. *)
Theorem run_load_spec (resps : list (string * Z)) :
  run_load resps =
  map (fun p => mkRequest (fst p) "GET" (snd p) (Some 0) None None)
      (List.filter (fun p => load_filter (fst p)) resps).
Proof. unfold run_load. apply run_load_acc. Qed.

(* ------------------------------------------------------------------ *)
(** ** Request report *)

Lemma counter_total_bump {K} `{Countable K} (m : gmap K Z) (k : K) :
  counter_total (bump m k) = counter_total m + 1.
Proof.
  unfold counter_total, bump.
  assert (Hcomm : forall (j1 j2 : K) (z1 z2 y : Z), z1 + (z2 + y) = z2 + (z1 + y)) by (intros; lia).
  destruct (m !! k) as [v|] eqn:Hk; simpl.
  - rewrite <- insert_delete_eq.
    rewrite map_fold_insert_L by (auto || apply lookup_delete_eq).
    rewrite (map_fold_delete_L _ _ k v m) by auto. lia.
  - rewrite map_fold_insert_L by auto. lia.
Qed.

Lemma counter_total_tally {A K} `{Countable K} (key : A -> option K) (l : list A)
    (m : gmap K Z) :
  counter_total (tally_by key l m) =
  counter_total m + Z.of_nat (count_where (fun r => defined (key r)) l).
Proof.
  unfold tally_by. revert m. induction l as [|r l IH]; intros m; simpl.
  - unfold count_where. simpl. lia.
  - rewrite IH, count_where_cons. destruct (key r) as [k|]; simpl.
    + rewrite counter_total_bump. lia.
    + lia.
Qed.

Lemma counter_total_empty {K} `{Countable K} : counter_total (∅ : gmap K Z) = 0.
Proof. unfold counter_total. apply map_fold_empty. Qed.

(** X9: [statusCodes] has no entry for status 0, and for every other
    status code the number of requests that received it; requests that got
    no response are not counted. *)
Theorem statusCodes_counts (new_URL : string -> Exc URL) (reqs : list NetworkRequest) :
  match generate_report new_URL reqs with
  | Ok rep => forall c : Z,
      statusCodes rep !! c =
      if c =? 0 then None
      else as_count (count_where (fun r => bool_decide (status r = Some c)) reqs)
  | Throw _ => False
  end.
Proof.
  rewrite generate_report_spec. cbn -[tally_by]. intros c.
  rewrite tally_by_empty.
  destruct (Z.eqb_spec c 0) as [->|Hc].
  - replace (count_where (key_is key_status 0) reqs) with 0%nat; [reflexivity|].
    induction reqs as [|r reqs IH]; [reflexivity|].
    rewrite count_where_cons, <- IH. unfold key_is, key_status.
    destruct (status r) as [z|]; simpl; [destruct (Z.eqb_spec z 0) as [->|Hz]; simpl|];
      try case_bool_decide; try congruence; reflexivity.
  - f_equal. apply count_where_ext. intros r. unfold key_is, key_status.
    apply bool_decide_ext. destruct (status r) as [z|]; simpl; [|split; congruence].
    destruct (Z.eqb_spec z 0) as [->|Hz]; simpl; split; congruence.
Qed.

Lemma bump_prop_ordinary (o : gmap string JSValue) (k : string) :
  object_prototype_get k = None -> map_Forall (fun _ v => exists z, v = JNum z) o ->
  exists z, bump_prop o k = <[k := JNum (z + 1)]> o /\
            (o !! k = None /\ z = 0 \/ o !! k = Some (JNum z)).
Proof.
  intros Hk Ho. unfold bump_prop, obj_set_primitive, obj_get.
  destruct (String.eqb_spec k "__proto__") as [->|Hp]; [discriminate|].
  destruct (o !! k) as [v|] eqn:Hv.
  - destruct (Ho k v Hv) as [z ->]. exists z.
    rewrite plus_one_or_zero_num. split; [reflexivity|now right].
  - rewrite Hk. exists 0. split; [reflexivity|now left].
Qed.

Lemma counter_total_js_insert (o : gmap string JSValue) (k : string) (z : Z) :
  (o !! k = None /\ z = 0 \/ o !! k = Some (JNum z)) ->
  counter_total_js (<[k := JNum (z + 1)]> o) = counter_total_js o + 1.
Proof.
  unfold counter_total_js.
  assert (Hcomm : forall (j1 j2 : string) (v1 v2 : JSValue) (y : Z),
    (match v1 with JNum a => a + (match v2 with JNum b => b + y | _ => y end)
               | _ => match v2 with JNum b => b + y | _ => y end end) =
    (match v2 with JNum b => b + (match v1 with JNum a => a + y | _ => y end)
               | _ => match v1 with JNum a => a + y | _ => y end end))
    by (intros j1 j2 [] [] y; lia).
  intros [[Hk ->]|Hk].
  - rewrite map_fold_insert_L by auto. simpl. lia.
  - rewrite <- insert_delete_eq.
    rewrite map_fold_insert_L by (auto || apply lookup_delete_eq).
    rewrite (map_fold_delete_L _ _ k (JNum z) o) by auto. simpl. lia.
Qed.

Lemma tally_prop_numbers {A} (key : A -> option string) (l : list A)
    (o : gmap string JSValue) :
  map_Forall (fun _ v => exists z, v = JNum z) o ->
  Forall (fun r => match key r with
                   | Some k => object_prototype_get k = None
                   | None => True
                   end) l ->
  map_Forall (fun _ v => exists z, v = JNum z) (tally_prop key l o) /\
  counter_total_js (tally_prop key l o) =
    counter_total_js o + Z.of_nat (count_where (fun r => defined (key r)) l).
Proof.
  unfold tally_prop. revert o. induction l as [|r l IH]; intros o Ho Hl; simpl.
  - unfold count_where. simpl. split; [exact Ho|lia].
  - inversion Hl as [|? ? Hr Hl']; subst. rewrite count_where_cons.
    destruct (key r) as [k|]; simpl.
    + destruct (bump_prop_ordinary o k Hr Ho) as (z & Heq & Hz). rewrite Heq.
      destruct (IH (<[k := JNum (z + 1)]> o)) as [IH1 IH2]; [|exact Hl'|].
      * apply map_Forall_insert_2; [eauto|exact Ho].
      * split; [exact IH1|]. rewrite IH2, counter_total_js_insert by exact Hz. lia.
    + destruct (IH o Ho Hl') as [IH1 IH2]. split; [exact IH1|]. lia.
Qed.

Lemma counter_total_js_empty : counter_total_js ∅ = 0.
Proof. unfold counter_total_js. apply map_fold_empty. Qed.

(** X10: when no method and no parsed host name names a property of
    [Object.prototype], [requestsByMethod] and [requestsByDomain] hold only
    numbers; every request is counted exactly once in [requestsByMethod]
    (its counts add up to [totalRequests]), the counts of
    [requestsByDomain] add up to the number of requests whose URL parses,
    and those of [statusCodes] to the number of requests with a non-zero
    status. *)
Theorem report_counter_totals (new_URL : string -> Exc URL) (reqs : list NetworkRequest)
    (Hm : Forall (fun r => object_prototype_get (method r) = None) reqs)
    (Hd : Forall (fun r => match new_URL (url r) with
                           | Ok u => object_prototype_get (hostname u) = None
                           | Throw _ => True
                           end) reqs) :
  match generate_report new_URL reqs with
  | Ok rep =>
      map_Forall (fun _ v => exists z, v = JNum z) (requestsByMethod rep) /\
      map_Forall (fun _ v => exists z, v = JNum z) (requestsByDomain rep) /\
      counter_total_js (requestsByMethod rep) = totalRequests rep /\
      counter_total_js (requestsByDomain rep) =
        Z.of_nat (count_where (fun r => match new_URL (url r) with
                                        | Ok _ => true | Throw _ => false end) reqs) /\
      counter_total (statusCodes rep) =
        Z.of_nat (count_where (fun r => num_truthy (status r)) reqs)
  | Throw _ => False
  end.
Proof.
  rewrite generate_report_spec. cbn -[tally_by tally_prop counter_total counter_total_js].
  destruct (tally_prop_numbers key_method reqs ∅) as [HM1 HM2];
    [apply map_Forall_empty|exact Hm|].
  destruct (tally_prop_numbers (key_domain new_URL) reqs ∅) as [HD1 HD2];
    [apply map_Forall_empty| |].
  { eapply Forall_impl; [exact Hd|]. intros r. unfold key_domain.
    destruct (new_URL (url r)); tauto. }
  rewrite counter_total_js_empty, Z.add_0_l in HM2, HD2.
  rewrite HM2, HD2, counter_total_tally, counter_total_empty, Z.add_0_l.
  split; [exact HM1|]. split; [exact HD1|]. split; [|split].
  - f_equal. unfold count_where. clear. induction reqs as [|r reqs IH]; [reflexivity|].
    simpl. f_equal. exact IH.
  - f_equal. apply count_where_ext. intros r. unfold key_domain.
    destruct (new_URL (url r)); reflexivity.
  - f_equal. apply count_where_ext. intros r. unfold key_status.
    destruct (status r) as [z|]; simpl; [|reflexivity].
    destruct (negb (z =? 0)); reflexivity.
Qed.

Lemma report_counter_totals_witness :
  Forall (fun r => object_prototype_get (method r) = None)
    [mkRequest "https://www.one.co.il/live/" "GET" 1000 None None (Some 200);
     mkRequest "https://www.one.co.il/api/x" "POST" 1001 None None (Some 404);
     mkRequest "not a url" "GET" 1002 None None None] /\
  Forall (fun r => match (fun s => if String.eqb s "not a url" then Throw (TypeError "Invalid URL")
                                   else Ok (mkURL s "www.one.co.il")) (url r) with
                   | Ok u => object_prototype_get (hostname u) = None
                   | Throw _ => True
                   end)
    [mkRequest "https://www.one.co.il/live/" "GET" 1000 None None (Some 200);
     mkRequest "https://www.one.co.il/api/x" "POST" 1001 None None (Some 404);
     mkRequest "not a url" "GET" 1002 None None None] /\
  match generate_report (fun s => if String.eqb s "not a url" then Throw (TypeError "Invalid URL")
                                  else Ok (mkURL s "www.one.co.il"))
          [mkRequest "https://www.one.co.il/live/" "GET" 1000 None None (Some 200);
           mkRequest "https://www.one.co.il/api/x" "POST" 1001 None None (Some 404);
           mkRequest "not a url" "GET" 1002 None None None] with
  | Ok rep =>
      map_Forall (fun _ v => exists z, v = JNum z) (requestsByMethod rep) /\
      map_Forall (fun _ v => exists z, v = JNum z) (requestsByDomain rep) /\
      counter_total_js (requestsByMethod rep) = totalRequests rep /\
      counter_total_js (requestsByDomain rep) =
        Z.of_nat (count_where (fun r => match (fun s => if String.eqb s "not a url"
                                                        then Throw (TypeError "Invalid URL")
                                                        else Ok (mkURL s "www.one.co.il")) (url r) with
                                        | Ok _ => true | Throw _ => false end)
                    [mkRequest "https://www.one.co.il/live/" "GET" 1000 None None (Some 200);
                     mkRequest "https://www.one.co.il/api/x" "POST" 1001 None None (Some 404);
                     mkRequest "not a url" "GET" 1002 None None None]) /\
      counter_total (statusCodes rep) =
        Z.of_nat (count_where (fun r => num_truthy (status r))
                    [mkRequest "https://www.one.co.il/live/" "GET" 1000 None None (Some 200);
                     mkRequest "https://www.one.co.il/api/x" "POST" 1001 None None (Some 404);
                     mkRequest "not a url" "GET" 1002 None None None])
  | Throw _ => False
  end.
Proof.
  split; [repeat constructor|]. split; [repeat constructor|].
  apply report_counter_totals; repeat constructor.
Defined.

(* ------------------------------------------------------------------ *)
(** ** Links, goal scorers and match extraction *)

Lemma valid_href_Some (o : option string) (h : string) :
  valid_href o = Some h <-> o = Some h /\ h <> "" /\ h <> "#".
Proof.
  destruct o as [s|]; simpl.
  - destruct (str_truthy s && negb (String.eqb s "#") && negb (String.eqb s "")) eqn:E.
    + rewrite !andb_true_iff, !negb_true_iff, !String.eqb_neq in E.
      destruct E as [[_ H1] H2]. split.
      * intros Hs; injection Hs as <-; auto.
      * intros (Hs & _ & _); congruence.
    + split; [discriminate|]. intros (Hs & H1 & H2). injection Hs as ->.
      destruct h as [|c t]; [congruence|].
      apply String.eqb_neq in H1, H2. rewrite H1, H2 in E. discriminate.
  - split; [discriminate|]. intros [H _]; discriminate.
Qed.

Lemma validLinks_head (hrefs : list (option string)) (h : string) :
  head (validLinks hrefs) = Some (Some h) <->
  exists pre suf, hrefs = pre ++ Some h :: suf /\
                  Forall (fun o => valid_href o = None) pre /\
                  h <> "" /\ h <> "#".
Proof.
  induction hrefs as [|a hrefs IH].
  - simpl. split; [discriminate|]. intros (pre & suf & E & _).
    destruct pre; discriminate.
  - unfold validLinks in *. simpl.
    destruct (valid_href a) as [x|] eqn:Ha; simpl.
    + apply valid_href_Some in Ha as (-> & Hx1 & Hx2). split.
      * intros Hx. injection Hx as <-. exists [], hrefs. repeat split; auto.
      * intros ([|b pre] & suf & E & Hpre & H1 & H2); simpl in E.
        -- injection E as -> _. reflexivity.
        -- injection E as <- _. inversion Hpre as [|? ? Hb]; subst.
           simpl in Hb. destruct (str_truthy x && negb (String.eqb x "#") && negb (String.eqb x "")) eqn:Ex; [discriminate|].
           destruct x as [|c t]; [congruence|].
           apply String.eqb_neq in Hx1, Hx2. rewrite Hx1, Hx2 in Ex. discriminate.
    + rewrite IH. split.
      * intros (pre & suf & E & Hpre & H1 & H2). exists (a :: pre), suf.
        rewrite E. repeat split; auto.
      * intros ([|b pre] & suf & E & Hpre & H1 & H2); simpl in E.
        -- injection E as -> _. exfalso.
           assert (valid_href (Some h) = Some h) by (apply valid_href_Some; auto). congruence.
        -- injection E as <- ->. inversion Hpre; subst. exists pre, suf. auto.
Qed.

(** X11: test 6 keeps exactly the [href] values that are present, non-empty
    and not ["#"], never a [null]; it counts at most as many valid links as
    links, and it has a [firstValidLink] iff it found a valid link; that
    [firstValidLink] is the first valid [href] of the page: the value of a
    link all of whose predecessors have an invalid [href]. *)
Theorem link_info_spec (hrefs : list (option string)) :
  (forall h, In (Some h) (validLinks hrefs) <-> In (Some h) hrefs /\ h <> "" /\ h <> "#") /\
  ~ In None (validLinks hrefs) /\
  validLinkCount (link_info hrefs) <= linkCount (link_info hrefs) /\
  (firstValidLink (link_info hrefs) = None <-> validLinkCount (link_info hrefs) = 0) /\
  (forall h, firstValidLink (link_info hrefs) = Some h <->
             exists pre suf, hrefs = pre ++ Some h :: suf /\
                             Forall (fun o => valid_href o = None) pre /\
                             h <> "" /\ h <> "#").
Proof.
  assert (Hin : forall h, In (Some h) (validLinks hrefs) <->
                          In (Some h) hrefs /\ h <> "" /\ h <> "#").
  { intros h. unfold validLinks. rewrite List.filter_In, in_map_iff. split.
    - intros [[x [Hx Hx']] _]. apply valid_href_Some in Hx as (-> & H1 & H2). auto.
    - intros (H & H1 & H2). split; [|reflexivity].
      exists (Some h). split; [apply valid_href_Some; auto|exact H]. }
  assert (Hnone : ~ In None (validLinks hrefs)).
  { unfold validLinks. rewrite List.filter_In. intros [_ H]. discriminate. }
  split; [exact Hin|]. split; [exact Hnone|]. unfold link_info; simpl. split.
  - apply Nat2Z.inj_le. unfold validLinks.
    rewrite <- (length_map valid_href hrefs). apply List.filter_length_le.
  - pose proof (fun h => validLinks_head hrefs h) as Hhd.
    destruct (validLinks hrefs) as [|[h|] rest] eqn:E; simpl in *.
    + split; [split; reflexivity|]. intros h. rewrite <- Hhd. split; discriminate.
    + assert (Hh : h <> "") by (apply (Hin h); left; reflexivity).
      destruct h as [|c t]; [congruence|]. simpl. split; [split; [discriminate|lia]|].
      intros h'. rewrite <- Hhd. split; congruence.
    + exfalso. apply Hnone. left. reflexivity.
Qed.

Lemma regex_special_backslash : regex_special "\"%char = true.
Proof. reflexivity. Qed.

Lemma regex_special_css (c : ascii) :
  regex_special c = true ->
  Ascii.eqb c dquote = false /\ css_newline c = false /\ is_hex_digit c = false /\
  (nat_of_ascii c =? 0)%nat = false.
Proof.
  intros H. destruct c as [[] [] [] [] [] [] [] []];
    vm_compute in H |- *; first [discriminate H | repeat split].
Qed.

Lemma string_length_app (s t : string) :
  String.length (s ++ t) = (String.length s + String.length t)%nat.
Proof. induction s as [|c s IH]; simpl; [reflexivity|]. rewrite IH. reflexivity. Qed.

Lemma css_body_escape_href (h r : string) (f : nat) :
  forallb css_string_safe (list_ascii_of_string h) = true ->
  (String.length (escape_href h) < f)%nat ->
  css_string_body f (escape_href h ++ String dquote r) = CssOk h r.
Proof.
  revert f. induction h as [|c h IH]; intros f Hs Hf.
  - destruct f as [|f]; [simpl in Hf; lia|]. reflexivity.
  - simpl in Hs. apply andb_true_iff in Hs as [Hc Hs].
    destruct f as [|f]; [simpl in Hf; lia|]. simpl in Hf.
    destruct (regex_special c) eqn:Hsp; simpl in Hf.
    + pose proof (regex_special_css c Hsp) as (Hq & Hn & Hx & H0).
      simpl escape_href. rewrite Hsp.
      change ((String "\" (String c (escape_href h)) ++ String dquote r)%string)
        with (String "\" (String c (escape_href h ++ String dquote r))).
      simpl css_string_body. rewrite Hn, Hx, H0.
      rewrite (IH f) by (auto; lia). reflexivity.
    + simpl escape_href. rewrite Hsp.
      change ((String c (escape_href h) ++ String dquote r)%string)
        with (String c (escape_href h ++ String dquote r)).
      unfold css_string_safe in Hc. apply andb_true_iff in Hc as [Hc H0].
      apply andb_true_iff in Hc as [Hq Hn]. apply negb_true_iff in Hq, Hn, H0.
      cbn [css_string_body]. rewrite Hq, Hn, H0.
      destruct (Ascii.eqb_spec c "\"%char) as [->|Hb].
      * rewrite regex_special_backslash in Hsp. discriminate.
      * rewrite (IH f) by (auto; lia). reflexivity.
Qed.

(** X12: the escaping of [firstValidLink] round-trips through the selector
    [a[href="${escapedHref}"]]: for an [href] without a double quote, newline or NUL,
    reading the string of the selector as the CSS tokenizer does gives back
    exactly the [href] and stops at the closing quote, before the closing bracket. *)
Theorem escape_href_round_trip (h : string)
    (Hsafe : forallb css_string_safe (list_ascii_of_string h) = true) :
  css_read_string (escape_href h ++ String dquote "]") = CssOk h "]".
Proof.
  unfold css_read_string. apply css_body_escape_href; [exact Hsafe|].
  rewrite string_length_app. lia.
Qed.

Lemma escape_href_round_trip_witness :
  forallb css_string_safe (list_ascii_of_string "/live/match-123?x=(1)") = true /\
  css_read_string (escape_href "/live/match-123?x=(1)" ++ String dquote "]") =
    CssOk "/live/match-123?x=(1)" "]".
Proof. split; [reflexivity|apply escape_href_round_trip; reflexivity]. Defined.

(** The escaping leaves the double quote alone, so a quote in the [href] closes the
    selector's string early, and a raw newline makes it a bad string. *)
Lemma escape_href_quote_closes_string :
  css_read_string (escape_href (String "a" (String dquote "b")) ++ String dquote "]") =
    CssOk "a" (String "b" (String dquote "]")).
Proof. vm_compute. reflexivity. Qed.

Lemma escape_href_newline_bad :
  css_read_string (escape_href (String "a" (String (ascii_of_nat 10) "b")) ++
                   String dquote "]") = CssBad.
Proof. vm_compute. reflexivity. Qed.

Lemma split_char_nonempty (sep : ascii) (s : string) : split_char sep s <> [].
Proof.
  destruct s as [|c s]; simpl; [discriminate|].
  destruct (Ascii.eqb c sep); [discriminate|]. destruct (split_char sep s); discriminate.
Qed.

Lemma split_char_concat (sep : ascii) (s : string) :
  String.concat (String sep EmptyString) (split_char sep s) = s.
Proof.
  induction s as [|c s IH]; [reflexivity|]. simpl.
  pose proof (split_char_nonempty sep s) as Hne.
  destruct (split_char sep s) as [|x xs]; [congruence|].
  destruct (Ascii.eqb_spec c sep) as [->|Hc].
  - rewrite <- IH. destruct xs; reflexivity.
  - rewrite <- IH. destruct xs; reflexivity.
Qed.

Lemma split_char_pieces (sep : ascii) (s : string) :
  Forall (fun p => ~ In sep (list_ascii_of_string p)) (split_char sep s).
Proof.
  induction s as [|c s IH]; simpl; [constructor; [simpl; tauto|constructor]|].
  destruct (Ascii.eqb_spec c sep) as [->|Hc]; [constructor; [simpl; tauto|exact IH]|].
  destruct (split_char sep s) as [|x xs]; [constructor; [simpl; intuition|constructor]|].
  inversion IH as [|? ? Hx Hxs]; subst. constructor; [|exact Hxs].
  simpl. intros [H|H]; [congruence|tauto].
Qed.

Lemma split_char_last_suffix (sep : ascii) (s : string) :
  exists pre, s = (pre ++ List.last (split_char sep s) EmptyString)%string.
Proof.
  induction s as [|c s [pre IH]]; [exists EmptyString; reflexivity|]. simpl.
  pose proof (split_char_concat sep s) as Hcat.
  pose proof (split_char_nonempty sep s) as Hne.
  destruct (split_char sep s) as [|x xs]; [congruence|].
  destruct (Ascii.eqb c sep).
  - exists (String c pre). rewrite IH at 1. reflexivity.
  - destruct xs as [|y ys].
    + exists EmptyString. simpl in Hcat. rewrite <- Hcat. reflexivity.
    + exists (String c pre). rewrite IH at 1. reflexivity.
Qed.

(** X13: [split("/")] cuts the string into pieces without ["/"] that join
    back to it, and [split("/").pop()] is the last piece, a suffix of the
    [href] without ["/"] (so the fallback [a[href*=...]] lookup matches the
    link the first lookup targeted). *)
Theorem split_slash_spec (h : string) :
  String.concat "/" (split_char "/" h) = h /\
  Forall (fun p => ~ In "/"%char (list_ascii_of_string p)) (split_char "/" h) /\
  In (last_segment h) (split_char "/" h) /\
  ~ In "/"%char (list_ascii_of_string (last_segment h)) /\
  exists pre, h = (pre ++ last_segment h)%string.
Proof.
  pose proof (split_char_pieces "/" h) as Hp.
  assert (Hin : In (last_segment h) (split_char "/" h)).
  { unfold last_segment. pose proof (split_char_nonempty "/" h) as Hne.
    rewrite (app_removelast_last EmptyString Hne) at 2.
    apply in_or_app. right. left. reflexivity. }
  split; [apply split_char_concat|]. split; [exact Hp|]. split; [exact Hin|].
  split; [|apply split_char_last_suffix].
  rewrite List.Forall_forall in Hp. exact (Hp _ Hin).
Qed.

Lemma stats_hrefs_In (hrefs : list (option string)) (h : string) :
  In h (stats_hrefs hrefs) <->
  In (Some h) hrefs /\ (includes h "match" || includes h "game" || includes h "stats") = true.
Proof.
  induction hrefs as [|[x|] t IH]; simpl.
  - tauto.
  - destruct (includes x "match" || includes x "game" || includes x "stats") eqn:Hx;
      simpl; rewrite IH; split.
    + intros [->|[H1 H2]]; auto.
    + intros [[H|H] H2]; [left; congruence|auto].
    + intros [H1 H2]; auto.
    + intros [[H|H] H2]; [injection H as ->; congruence|auto].
  - rewrite IH. split; [intros [H1 H2]; auto|]. intros [[H|H] H2]; [discriminate|auto].
Qed.

Lemma stats_hrefs_nil (hrefs : list (option string)) :
  stats_hrefs hrefs = [] <->
  Forall (fun o => match o with
                   | Some h => (includes h "match" || includes h "game" || includes h "stats") = false
                   | None => True
                   end) hrefs.
Proof.
  induction hrefs as [|[x|] t IH]; simpl.
  - split; constructor.
  - destruct (includes x "match" || includes x "game" || includes x "stats") eqn:Hx.
    + split; [discriminate|]. intros H. inversion H; congruence.
    + rewrite IH. split; [intros H; constructor; auto|]. intros H; inversion H; auto.
  - rewrite IH. split; [intros H; constructor; auto|]. intros H; inversion H; auto.
Qed.

(** X14: test 8 keeps at most three links, each a present [href] of the
    page that contains "match", "game" or "stats"; it keeps none exactly
    when no [href] contains one of them. *)
Theorem matchLinks_spec (hrefs : list (option string)) :
  (length (matchLinks hrefs) <= 3)%nat /\
  (forall h, In h (matchLinks hrefs) ->
     In (Some h) hrefs /\ (includes h "match" || includes h "game" || includes h "stats") = true) /\
  (matchLinks hrefs = [] <->
   Forall (fun o => match o with
                    | Some h => (includes h "match" || includes h "game" || includes h "stats") = false
                    | None => True
                    end) hrefs).
Proof.
  unfold matchLinks. split; [apply firstn_le_length|]. split.
  - intros h Hh. apply stats_hrefs_In.
    rewrite <- (firstn_skipn 3 (stats_hrefs hrefs)). apply in_or_app. now left.
  - rewrite <- stats_hrefs_nil. destruct (stats_hrefs hrefs); simpl; split; congruence.
Qed.

Lemma desc_loop_spec (g : list GoalScorer) (fuel i : nat) :
  desc_loop g i fuel = true <->
  forall j a b, (i <= j < i + fuel)%nat -> g !! j = Some a -> g !! S j = Some b ->
                goals b <= goals a.
Proof.
  revert i. induction fuel as [|f IH]; intros i; simpl.
  - split; [|reflexivity]. intros _ j a b Hj. lia.
  - destruct (Z.ltb_spec (Z.of_nat i) (Z.of_nat (length g) - 1)) as [Hlt|Hge].
    + destruct (g !! i) as [a|] eqn:Ha; [|apply lookup_ge_None in Ha; lia].
      destruct (g !! S i) as [b|] eqn:Hb; [|apply lookup_ge_None in Hb; lia].
      destruct (Z.ltb_spec (goals a) (goals b)) as [Hab|Hab].
      * split; [discriminate|]. intros H. specialize (H i a b ltac:(lia) Ha Hb). lia.
      * rewrite IH. split.
        -- intros H j a' b' Hj Ha' Hb'.
           destruct (Nat.eq_dec j i) as [->|Hne]; [congruence|].
           apply (H j); auto; lia.
        -- intros H j a' b' Hj. apply H. lia.
    + split; [intros _|reflexivity]. intros j a b Hj Ha Hb.
      apply lookup_lt_Some in Hb. lia.
Qed.

(** X15: the [isSorted] loop of test 8 (with its early [break]) yields
    [true] iff no scorer has fewer goals than the next one. *)
Theorem isSorted_spec (g : list GoalScorer) :
  isSorted g = true <->
  forall i a b, g !! i = Some a -> g !! S i = Some b -> goals b <= goals a.
Proof.
  unfold isSorted. rewrite desc_loop_spec. split.
  - intros H j a b Ha Hb. apply (H j); auto. apply lookup_lt_Some in Hb. lia.
  - intros H j a b _. apply H.
Qed.

Lemma digit_not_ws (c : ascii) : is_digit c = true -> is_js_whitespace c = false.
Proof.
  unfold is_digit, is_js_whitespace. rewrite andb_true_iff, !Nat.leb_le.
  intros [H1 H2].
  repeat match goal with
         | |- context [Nat.eqb ?a ?b] => destruct (Nat.eqb_spec a b); [lia|]
         end.
  reflexivity.
Qed.

Lemma ws_not_digit (c : ascii) : is_js_whitespace c = true -> is_digit c = false.
Proof.
  intros H. destruct (is_digit c) eqn:Hd; [|reflexivity].
  apply digit_not_ws in Hd. congruence.
Qed.

Lemma all_ws_no_digits (s : string) :
  forallb is_js_whitespace (list_ascii_of_string s) = true ->
  digit_run s = EmptyString /\ first_digit_run s = None.
Proof.
  induction s as [|c s IH]; simpl; [auto|]. rewrite andb_true_iff.
  intros [Hc Hs]. rewrite (ws_not_digit c Hc). split; [reflexivity|apply (IH Hs)].
Qed.

Lemma first_digit_run_trim_start (s : string) :
  first_digit_run (trim_start s) = first_digit_run s.
Proof.
  induction s as [|c s IH]; [reflexivity|]. simpl.
  destruct (is_js_whitespace c) eqn:Hc; [|reflexivity].
  rewrite (ws_not_digit c Hc). exact IH.
Qed.

Lemma trim_end_digits (s : string) :
  digit_run (trim_end s) = digit_run s /\ first_digit_run (trim_end s) = first_digit_run s.
Proof.
  induction s as [|c s [IH1 IH2]]; [auto|]. simpl.
  destruct (trim_end s) as [|d t] eqn:Ht.
  - destruct (all_ws_no_digits s) as [H1 H2]; [apply trim_end_empty; exact Ht|].
    destruct (is_js_whitespace c) eqn:Hc.
    + rewrite (ws_not_digit c Hc). simpl. auto.
    + simpl. rewrite H1, H2. destruct (is_digit c); auto.
  - simpl. rewrite <- IH1, <- IH2. simpl. auto.
Qed.

Lemma first_digit_run_trim (s : string) : first_digit_run (trim s) = first_digit_run s.
Proof. unfold trim. rewrite (proj2 (trim_end_digits _)). apply first_digit_run_trim_start. Qed.

Lemma digit_run_digits (s : string) : forallb is_digit (list_ascii_of_string (digit_run s)) = true.
Proof.
  induction s as [|c s IH]; [reflexivity|]. simpl.
  destruct (is_digit c) eqn:Hc; simpl; [now rewrite Hc, IH|reflexivity].
Qed.

Lemma first_digit_run_digits (s d : string) :
  first_digit_run s = Some d -> forallb is_digit (list_ascii_of_string d) = true.
Proof.
  induction s as [|c s IH]; simpl; [discriminate|].
  destruct (is_digit c) eqn:Hc; [|exact IH].
  intros H. injection H as <-. pose proof (digit_run_digits (String c s)) as G.
  simpl in G. rewrite Hc in G. exact G.
Qed.

Lemma parse_decimal_nonneg (acc : Z) (s : string) :
  0 <= acc -> forallb is_digit (list_ascii_of_string s) = true -> 0 <= parse_decimal acc s.
Proof.
  revert acc. induction s as [|c s IH]; simpl; intros acc Hacc; [auto|].
  rewrite andb_true_iff. intros [Hc Hs]. apply IH; [|exact Hs].
  unfold is_digit in Hc. rewrite andb_true_iff, !Nat.leb_le in Hc.
  unfold digit_value. lia.
Qed.

Lemma round_to_double_nonneg (z : Z) : 0 <= z -> 0 <= round_to_double z.
Proof.
  intros Hz. unfold round_to_double. destruct (z <=? 2 ^ 53); [exact Hz|].
  set (e := Z.log2 z - 52). set (m := Z.shiftr z e).
  assert (Hm : 0 <= m) by (apply Z.shiftr_nonneg; exact Hz).
  destruct (_ || _); (destruct (2 ^ 1024 <=? _); [lia|]);
    apply Z.shiftl_nonneg; lia.
Qed.

Lemma round_to_double_small (z : Z) : z <= 2 ^ 53 -> round_to_double z = z.
Proof. intros Hz. unfold round_to_double. apply Z.leb_le in Hz. rewrite Hz. reflexivity. Qed.

(** X16: a scorer's text is the trimmed [textContent] ([""] for [null]), and
    its goals are read from the first run of digits of the untrimmed text
    (trimming never changes it), 0 when there is none; goals are never
    negative. *)
Theorem scorer_of_spec (o : option string) :
  scorer_text (scorer_of o) = match o with Some t => trim t | None => EmptyString end /\
  goals (scorer_of o) =
    match o with
    | Some t => match first_digit_run t with Some d => parseInt10 d | None => 0 end
    | None => 0
    end /\
  0 <= goals (scorer_of o).
Proof.
  assert (Htext : forall t, (if str_truthy (trim t) then trim t else EmptyString) = trim t).
  { intros t. destruct (trim t); reflexivity. }
  destruct o as [t|]; simpl; [|auto with zarith].
  rewrite Htext, first_digit_run_trim. split; [reflexivity|]. split; [reflexivity|].
  destruct (first_digit_run t) as [d|] eqn:Hd; [|lia].
  apply round_to_double_nonneg.
  apply parse_decimal_nonneg; [lia|]. exact (first_digit_run_digits t d Hd).
Qed.

Lemma first_digit_run_skip (p s : string) :
  forallb (fun c => negb (is_digit c)) (list_ascii_of_string p) = true ->
  first_digit_run (p ++ s)%string = first_digit_run s.
Proof.
  induction p as [|c p IH]; simpl; [reflexivity|]. rewrite andb_true_iff, negb_true_iff.
  intros [Hc Hp]. rewrite Hc. exact (IH Hp).
Qed.

Lemma digit_run_app (ds r : string) :
  forallb is_digit (list_ascii_of_string ds) = true ->
  match r with String c _ => is_digit c = false | EmptyString => True end ->
  digit_run (ds ++ r)%string = ds.
Proof.
  intros Hds Hr. induction ds as [|c ds IH].
  - destruct r as [|c r]; [reflexivity|].
    change (("" ++ String c r)%string) with (String c r). cbn [digit_run]. now rewrite Hr.
  - cbn [list_ascii_of_string forallb] in Hds.
    apply andb_true_iff in Hds as [Hc Hds].
    change ((String c ds ++ r)%string) with (String c (ds ++ r)). cbn [digit_run].
    rewrite Hc, IH by exact Hds. reflexivity.
Qed.

(** X17: for a text made of a part without digits, a non-empty run of
    digits and a rest that does not start with a digit, the goals are the
    decimal value of that run, when it is at most 2^53 (above, [parseInt]
    rounds it to a double). *)
Theorem scorer_goals_first_number (p ds r : string)
    (Hp : forallb (fun c => negb (is_digit c)) (list_ascii_of_string p) = true)
    (Hne : ds <> EmptyString)
    (Hds : forallb is_digit (list_ascii_of_string ds) = true)
    (Hr : match r with String c _ => is_digit c = false | EmptyString => True end)
    (Hsmall : parse_decimal 0 ds <= 2 ^ 53) :
  goals (scorer_of (Some (p ++ ds ++ r)%string)) = parse_decimal 0 ds.
Proof.
  pose proof (proj1 (proj2 (scorer_of_spec (Some (p ++ ds ++ r)%string)))) as G.
  rewrite G, first_digit_run_skip by exact Hp.
  unfold parseInt10. rewrite <- (round_to_double_small _ Hsmall). f_equal.
  destruct ds as [|c ds']; [congruence|].
  assert (Hc : is_digit c = true) by (cbn [list_ascii_of_string forallb] in Hds;
                                       now apply andb_true_iff in Hds as [Hc _]).
  change ((String c ds' ++ r)%string) with (String c (ds' ++ r)).
  cbn [first_digit_run]. rewrite Hc.
  change (String c (ds' ++ r)) with ((String c ds' ++ r)%string).
  rewrite digit_run_app by assumption. reflexivity.
Qed.

Lemma scorer_goals_first_number_witness :
  forallb (fun c => negb (is_digit c)) (list_ascii_of_string "Messi ") = true /\
  "12" <> EmptyString /\
  forallb is_digit (list_ascii_of_string "12") = true /\
  is_digit " "%char = false /\
  parse_decimal 0 "12" <= 2 ^ 53 /\
  goals (scorer_of (Some ("Messi " ++ "12" ++ " goals")%string)) = parse_decimal 0 "12" /\
  parse_decimal 0 "12" = 12.
Proof.
  split; [reflexivity|]. split; [discriminate|]. split; [reflexivity|].
  split; [reflexivity|]. split; [vm_compute; congruence|]. split; [|reflexivity].
  apply scorer_goals_first_number;
    [reflexivity|discriminate|reflexivity|reflexivity|vm_compute; congruence].
Defined.

(** Above 2^53 the goals are the rounded double: [parseInt] reads twenty
    nines as 1e20. *)
Lemma scorer_goals_rounded :
  goals (scorer_of (Some "99999999999999999999 goals")) = 10 ^ 20.
Proof. vm_compute. reflexivity. Qed.

Lemma count_where_ext_in {A} (p q : A -> bool) (l : list A) :
  (forall x, In x l -> p x = q x) -> count_where p l = count_where q l.
Proof.
  intros Hpq. induction l as [|x l IH]; [reflexivity|].
  rewrite !count_where_cons, Hpq, IH; [reflexivity| |left; reflexivity].
  intros y Hy. apply Hpq. now right.
Qed.

Lemma or_empty_id (s : string) : or_empty s = s.
Proof. destruct s; reflexivity. Qed.

Section DomFacts.

Variable Element : Type.
Variable doc_querySelectorAll : MatchSelector -> list Element.
Variable el_querySelectorAll : Element -> FieldSelector -> list Element.
Variable textContent : Element -> option string.
Variable getAttribute : Element -> string -> option string.

Lemma try_alternatives_spec (alts : list MatchSelector) (cur : list Element) :
  length cur = 0%nat ->
  try_alternatives Element doc_querySelectorAll alts cur =
  match List.find (fun sel => 0 <? length (doc_querySelectorAll sel))%nat alts with
  | Some sel => doc_querySelectorAll sel
  | None => []
  end.
Proof.
  revert cur. induction alts as [|a rest IH]; intros cur Hcur; simpl.
  - destruct cur; [reflexivity|discriminate].
  - destruct (0 <? length (doc_querySelectorAll a))%nat eqn:Ha; [reflexivity|].
    apply IH. apply Nat.ltb_ge in Ha. lia.
Qed.

(** X18: test 3 uses the elements of the first selector, in the order
    [matchItem] then the five alternatives, that matches something, and
    none if no selector matches. *)
Theorem find_match_elements_spec :
  find_match_elements Element doc_querySelectorAll =
  match List.find (fun sel => 0 <? length (doc_querySelectorAll sel))%nat
          (MatchItem :: match_alternatives) with
  | Some sel => doc_querySelectorAll sel
  | None => []
  end.
Proof.
  unfold find_match_elements. cbn [List.find].
  destruct (length (doc_querySelectorAll MatchItem) =? 0)%nat eqn:H0.
  - apply Nat.eqb_eq in H0. rewrite (try_alternatives_spec _ _ H0), H0. reflexivity.
  - apply Nat.eqb_neq in H0.
    destruct (Nat.ltb_spec 0 (length (doc_querySelectorAll MatchItem))); [reflexivity|lia].
Qed.

Lemma text_of_trimmed (o : option Element) :
  trim (text_of Element textContent o) = text_of Element textContent o.
Proof.
  destruct o as [e|]; simpl; [|reflexivity].
  destruct (textContent e) as [t|]; [|reflexivity].
  rewrite or_empty_id. apply trim_idem.
Qed.

(** X19: every text field test 3 extracts (teams, score, date, time) is
    already trimmed. *)
Theorem extract_matches_trimmed :
  Forall (fun m => trim (x_homeTeam m) = x_homeTeam m /\ trim (x_awayTeam m) = x_awayTeam m /\
                   trim (x_scoreText m) = x_scoreText m /\ trim (x_date m) = x_date m /\
                   trim (x_time m) = x_time m)
    (extract_matches Element doc_querySelectorAll el_querySelectorAll textContent getAttribute).
Proof.
  unfold extract_matches. apply List.Forall_forall. intros m Hm.
  apply in_map_iff in Hm as (el & <- & _). simpl.
  rewrite !text_of_trimmed. tauto.
Qed.

(** X20: the [hasTeams] test of test 3 counts exactly the extracted matches
    whose two team names [validateTeamName] accepts. *)
Theorem validCount_validateTeamName :
  validCount (extract_matches Element doc_querySelectorAll el_querySelectorAll
                textContent getAttribute) =
  count_where (fun m => validateTeamName (JSString (x_homeTeam m))
                        && validateTeamName (JSString (x_awayTeam m)))
    (extract_matches Element doc_querySelectorAll el_querySelectorAll textContent getAttribute).
Proof.
  unfold validCount. apply count_where_ext_in. intros m Hm.
  pose proof extract_matches_trimmed as Ht. rewrite List.Forall_forall in Ht.
  destruct (Ht m Hm) as (Hh & Ha & _). simpl. rewrite Hh, Ha.
  destruct (x_homeTeam m), (x_awayTeam m); reflexivity.
Qed.

(** X21: the third fallback of [homeTeamEl],
    [el.querySelectorAll(teamName)[0]], never changes the result: it is the
    element [el.querySelector(teamName)] already returned. *)
Theorem extract_match_home_fallback (el : Element) :
  x_homeTeam (extract_match Element el_querySelectorAll textContent getAttribute el) =
  text_of Element textContent
    (or_else (querySelector Element el_querySelectorAll el HomeTeamSel)
             (querySelector Element el_querySelectorAll el TeamNameSel)).
Proof.
  simpl. unfold querySelector.
  destruct (el_querySelectorAll el HomeTeamSel); [|reflexivity].
  destruct (el_querySelectorAll el TeamNameSel); reflexivity.
Qed.

(** X22: in a match element without home- or away-specific elements, the
    home team is the first [teamName] element and the away team the second
    ([""] when there is none). *)
Theorem extract_match_team_list (el : Element)
    (Hh : el_querySelectorAll el HomeTeamSel = [])
    (Ha : el_querySelectorAll el AwayTeamSel = []) :
  x_homeTeam (extract_match Element el_querySelectorAll textContent getAttribute el) =
    text_of Element textContent (nth_error (el_querySelectorAll el TeamNameSel) 0) /\
  x_awayTeam (extract_match Element el_querySelectorAll textContent getAttribute el) =
    text_of Element textContent (nth_error (el_querySelectorAll el TeamNameSel) 1).
Proof.
  simpl. unfold querySelector. rewrite Hh, Ha. simpl.
  destruct (el_querySelectorAll el TeamNameSel); split; reflexivity.
Qed.

End DomFacts.

Lemma extract_match_team_list_witness :
  sample_querySelectorAll 0%nat HomeTeamSel = [] /\
  sample_querySelectorAll 0%nat AwayTeamSel = [] /\
  (x_homeTeam (extract_match nat sample_querySelectorAll sample_textContent
                 sample_getAttribute 0%nat) =
     text_of nat sample_textContent (nth_error (sample_querySelectorAll 0%nat TeamNameSel) 0) /\
   x_awayTeam (extract_match nat sample_querySelectorAll sample_textContent
                 sample_getAttribute 0%nat) =
     text_of nat sample_textContent (nth_error (sample_querySelectorAll 0%nat TeamNameSel) 1)) /\
  x_homeTeam (extract_match nat sample_querySelectorAll sample_textContent
                sample_getAttribute 0%nat) = "Maccabi Haifa".
Proof.
  split; [reflexivity|]. split; [reflexivity|]. split; [|vm_compute; reflexivity].
  apply extract_match_team_list; reflexivity.
Defined.
